(** * verify_csv_mapping.py: exercise-name mapping check

    A shallow embedding of [workouts/verify_csv_mapping.py].  The script
    runs top to bottom: it builds the dictionary [name_to_id] from
    [exercises.json], scans [WorkoutExport.csv] row by row, and prints a
    report.  The three stages are embedded as [build_name_to_id],
    [scan_csv] and [report]; [main] chains them in the order of the file.

    Conventions.
    - A Python [str] is a [string] whose characters are code points below
      256; on that range [str.lower], [str.strip] and [<] on strings are
      the functions [lower], [strip] and [String.le] below.  The fixed text
      of the banners is kept as the UTF-8 bytes of the source file.
    - A Python [int] is a [Z]; [len] of a set or dict is [size] as a [Z].
    - A Python [float] is a binary64 value, [spec_float] at precision 53.
    - [set] is [gset string], [dict] with string keys is [gmap string _].
    - [json.load] and [csv.reader] are taken as given: the inputs are the
      parsed object (its items in file order) and the tokenised rows. *)

From Stdlib Require Import ZArith QArith Qabs Qpower Qfield Lqa.
From Stdlib Require Import Ascii String List Lia.
From Stdlib Require Import Floats.SpecFloat.
From stdpp Require Import gmap strings list sorting pretty.

Local Open Scope Z_scope.

(** ** Python built-ins on strings *)

Module Py.

Definition isspace (c : ascii) : bool :=
  let n := N_of_ascii c in
  ((9 <=? n) && (n <=? 13) || (28 <=? n) && (n <=? 32)
   || (n =? 133) || (n =? 160))%N.

Definition char_lower (c : ascii) : ascii :=
  let n := N_of_ascii c in
  if ((65 <=? n) && (n <=? 90)
      || (192 <=? n) && (n <=? 222) && negb (n =? 215))%N
  then ascii_of_N (n + 32) else c.

(** [s.lower()] *)
Fixpoint lower (s : string) : string :=
  match s with
  | "" => ""
  | String c s' => String (char_lower c) (lower s')
  end.

(** [s.lstrip()], [s.rstrip()] and [s.strip()] without argument *)
Fixpoint lstrip (s : string) : string :=
  match s with
  | "" => ""
  | String c s' => if isspace c then lstrip s' else s
  end.

Fixpoint rstrip (s : string) : string :=
  match s with
  | "" => ""
  | String c s' =>
      match rstrip s' with
      | "" => if isspace c then "" else String c ""
      | r => String c r
      end
  end.

Definition strip (s : string) : string := rstrip (lstrip s).

(** Truth value of a string: only the empty string is false. *)
Definition truthy (s : string) : bool :=
  match s with "" => false | _ => true end.

(** First and last character tests, used to say "no surrounding blanks". *)
Definition starts_with_space (s : string) : bool :=
  match s with "" => false | String c _ => isspace c end.

Fixpoint ends_with_space (s : string) : bool :=
  match s with
  | "" => false
  | String c "" => isspace c
  | String _ s' => ends_with_space s'
  end.

Definition trimmed (s : string) : Prop :=
  starts_with_space s = false ∧ ends_with_space s = false.

Definition lowercased (s : string) : Prop := lower s = s.

End Py.

(** ** Stage 1: the mapping loader (lines 17-31) *)

(** One value of the JSON object: [data['name']] and [data.get('exportName')].
    A missing key and a JSON [null] both read as [None]. *)
Record ExerciseData := {
  name : string;
  exportName : option string
}.

(** Body of the loop at lines 24-29, for one [(ex_id, data)] item. *)
Definition name_to_id_step (name_to_id : gmap string string)
    (item : string * ExerciseData) : gmap string string :=
  let '(ex_id, data) := item in
  let name := Py.strip (Py.lower (name data)) in
  let name_to_id := <[name := ex_id]> name_to_id in
  match exportName data with
  | Some en =>
      if Py.truthy en && negb (String.eqb (Py.lower en) name)
      then <[Py.strip (Py.lower en) := ex_id]> name_to_id
      else name_to_id
  | None => name_to_id
  end.

(** The whole loop, starting from the empty dictionary of line 23. *)
Definition build_name_to_id (exercises_data : list (string * ExerciseData))
    : gmap string string :=
  foldl name_to_id_step ∅ exercises_data.

(** ** Exceptions and the output stream *)

Inductive exn :=
  | KeyError (key : string)
  | AttributeError
  | ZeroDivisionError
  | OverflowError.

(** An expression either has a value or raises. *)
Inductive outcome (A : Type) :=
  | Done (a : A)
  | Raised (e : exn).
Arguments Done {A} a.
Arguments Raised {A} e.

Global Instance outcome_ret : MRet outcome := λ A a, Done a.
Global Instance outcome_bind : MBind outcome := λ A B f m,
  match m with
  | Done a => f a
  | Raised e => Raised e
  end.

(** A statement sequence: the arguments of the [print] calls it made, in
    order, and how it ended.  Nothing is printed after an exception. *)
Inductive Prog (A : Type) := Run (stdout : list string) (res : outcome A).
Arguments Run {A} stdout res.

Definition stdout {A} (p : Prog A) : list string :=
  match p with Run o _ => o end.
Definition res {A} (p : Prog A) : outcome A :=
  match p with Run _ r => r end.

Global Instance Prog_ret : MRet Prog := λ A a, Run [] (Done a).
Global Instance Prog_bind : MBind Prog := λ A B f m,
  match m with
  | Run o (Done a) => match f a with Run o' r => Run (o ++ o') r end
  | Run o (Raised e) => Run o (Raised e)
  end.

Definition print (s : string) : Prog unit := Run [s] (Done tt).
Definition eval {A} (r : outcome A) : Prog A := Run [] r.

(** [for s in lines: print(s)] *)
Definition print_each (lines : list string) : Prog unit := Run lines (Done tt).

(** ** Stage 2: the CSV scanner (lines 33-55) *)

(** A cell read through [csv.DictReader]: a string, or [None] where the
    row is shorter than the header ([restval]). *)
Abbreviation cell := (option string) (only parsing).

(** [dict(zip(fieldnames, row))] followed by the [restval] padding of
    [DictReader.__next__].  Surplus cells go under the key [None], which no
    subscript of the script can name, and are left out. *)
Definition make_row (fieldnames row : list string) : gmap string cell :=
  let d := foldl (λ d kv, <[kv.1 := Some kv.2]> d) ∅ (zip fieldnames row) in
  foldl (λ d key, <[key := None]> d) d (drop (length row) fieldnames).

(** [csv.DictReader(f)]: the first row gives the field names, empty rows
    are skipped, an empty file has no rows. *)
Definition DictReader (f : list (list string)) : list (gmap string cell) :=
  match f with
  | [] => []
  | fieldnames :: rows => make_row fieldnames <$> filter (λ r, r ≠ []) rows
  end.

(** [row[key]] *)
Definition getitem (row : gmap string cell) (key : string) : outcome cell :=
  match row !! key with
  | Some v => Done v
  | None => Raised (KeyError key)
  end.

(** [v.strip()] for a cell *)
Definition cell_strip (v : cell) : outcome string :=
  match v with
  | Some s => Done (Py.strip s)
  | None => Raised AttributeError
  end.

(** The dictionary appended at lines 46-51. *)
Record LogEntry := {
  log_name : string;
  log_reps : cell;
  log_weight : cell;
  log_isWarmup : cell
}.

(** The three collections of lines 35-37. *)
Record scan_state := {
  csv_exercises : gset string;
  csv_workouts : gmap string (list LogEntry);
  unmapped_exercises : gset string
}.

Definition scan_init : scan_state :=
  {| csv_exercises := ∅; csv_workouts := ∅; unmapped_exercises := ∅ |}.

(** [d[key].append(x)] on a [defaultdict(list)] *)
Definition defaultdict_append {V} (d : gmap string (list V)) (key : string)
    (x : V) : gmap string (list V) :=
  <[key := default [] (d !! key) ++ [x]]> d.

(** Body of the loop at lines 41-55, for one row. *)
Definition scan_step (name_to_id : gmap string string) (st : scan_state)
    (row : gmap string cell) : outcome scan_state :=
  exercise_name ← getitem row "Exercise" ≫= cell_strip;
  date ← getitem row "Date" ≫= cell_strip;
  let csv_exercises := {[exercise_name]} ∪ csv_exercises st in
  reps ← getitem row "Reps";
  weight ← getitem row "Weight(kg)";
  isWarmup ← getitem row "isWarmup";
  let csv_workouts :=
    defaultdict_append (csv_workouts st) date
      {| log_name := exercise_name; log_reps := reps;
         log_weight := weight; log_isWarmup := isWarmup |} in
  let unmapped_exercises :=
    match name_to_id !! Py.lower exercise_name with
    | Some _ => unmapped_exercises st
    | None => {[exercise_name]} ∪ unmapped_exercises st
    end in
  mret {| csv_exercises := csv_exercises; csv_workouts := csv_workouts;
          unmapped_exercises := unmapped_exercises |}.

Fixpoint scan_rows (name_to_id : gmap string string) (st : scan_state)
    (rows : list (gmap string cell)) : outcome scan_state :=
  match rows with
  | [] => Done st
  | row :: rows' =>
      st' ← scan_step name_to_id st row; scan_rows name_to_id st' rows'
  end.

Definition scan_csv (name_to_id : gmap string string)
    (f : list (list string)) : outcome scan_state :=
  scan_rows name_to_id scan_init (DictReader f).

(** ** Python built-ins on numbers *)

Module Float.

Definition prec : Z := 53.
Definition emax : Z := 1024.

(** An integer as an exact, unrounded binary number. *)
Definition exact (n : Z) : spec_float :=
  match n with
  | 0 => S754_zero false
  | Zpos p => S754_finite false p 0
  | Zneg p => S754_finite true p 0
  end.

(** [a / b] on two ints: the quotient rounded once to binary64. *)
Definition int_truediv (a b : Z) : outcome spec_float :=
  if b =? 0 then Raised ZeroDivisionError
  else match SFdiv prec emax (exact a) (exact b) with
       | S754_infinity _ => Raised OverflowError
       | q => Done q
       end.

(** [float(n)] *)
Definition of_int (n : Z) : spec_float := binary_normalize prec emax n 0 false.

(** [x * n] for a float [x] and an int [n] *)
Definition mul_int (x : spec_float) (n : Z) : spec_float :=
  SFmul prec emax x (of_int n).

(** [n / d] rounded to the nearest integer, ties to the even one
    ([d] positive). *)
Definition round_half_even (n d : Z) : Z :=
  let (q, r) := Z.div_eucl n d in
  match 2 * r ?= d with
  | Lt => q
  | Gt => q + 1
  | Eq => if Z.even q then q else q + 1
  end.

(** The number of tenths nearest to [m * 2^e]. *)
Definition tenths (m : positive) (e : Z) : Z :=
  match e with
  | Zneg p => round_half_even (10 * Zpos m) (2 ^ Zpos p)
  | _ => 10 * Zpos m * 2 ^ e
  end.

(** A count of tenths written with one digit after the point. *)
Definition fixed1 (t : Z) : string :=
  pretty (t / 10) +:+ "." +:+ String (pretty_N_char (Z.to_N (t mod 10))) "".

Definition sign (s : bool) : string := if s then "-" else "".

(** [format(x, '.1f')] *)
Definition format_1f (x : spec_float) : string :=
  match x with
  | S754_nan => "nan"
  | S754_infinity s => sign s +:+ "inf"
  | S754_zero s => sign s +:+ "0.0"
  | S754_finite s m e => sign s +:+ fixed1 (tenths m e)
  end.

(** Zero or a positive finite number: not negative, infinite or NaN. *)
Definition finite_nonneg (x : spec_float) : bool :=
  match x with
  | S754_zero false | S754_finite false _ _ => true
  | _ => false
  end.

(** The rational number a finite float stands for, [m * 2^e]. *)
Definition to_Q (x : spec_float) : Q :=
  match x with
  | S754_finite s m e =>
      let v := match e with
               | Zneg p => Zpos m # 2 ^ p
               | _ => inject_Z (Zpos m * 2 ^ e)
               end in
      if s then Qopp v else v
  | _ => 0%Q
  end.

End Float.

(** [len(s)], [str(n)] and [sorted(s)] *)
Definition len `{Size C} (c : C) : Z := Z.of_nat (size c).
Definition str (n : Z) : string := pretty n.
Definition sorted (s : gset string) : list string :=
  merge_sort String.le (elements s).

(** [str(d.get(key))] *)
Definition str_get (d : gmap string string) (key : string) : string :=
  match d !! key with
  | Some v => v
  | None => "None"
  end.

Definition nl : string := String "010" "".
Definition rule : string :=
  "============================================================".

(** ** Stage 3: the report (lines 57-104) *)

Section Report.
Variable name_to_id : gmap string string.
Variable st : scan_state.

(** Line 65. *)
Definition mapped_count : Z :=
  len (csv_exercises st) - len (unmapped_exercises st).

(** Lines 69-76: the listing of unmapped names, or the all-mapped line. *)
Definition report_unmapped : Prog unit :=
  if bool_decide (unmapped_exercises st ≠ ∅) then
    print (nl +:+ "⚠️  WARNING: " +:+ str (len (unmapped_exercises st))
           +:+ " exercises in CSV have no mapping:");;
    print_each ((λ ex, "   - " +:+ ex)
                  <$> take 20 (sorted (unmapped_exercises st)));;
    if 20 <? len (unmapped_exercises st) then
      print ("   ... and " +:+ str (len (unmapped_exercises st) - 20)
             +:+ " more")
    else mret tt
  else
    print (nl +:+ "🎉 All exercises in CSV have been mapped to unique IDs!").

(** Lines 60-76. *)
Definition report_mapping : Prog unit :=
  print rule;;
  print "📊 EXERCISE MAPPING VERIFICATION";;
  print rule;;
  print ("✅ Mapped exercises: " +:+ str mapped_count +:+ "/"
         +:+ str (len (csv_exercises st)));;
  print ("❌ Unmapped exercises: " +:+ str (len (unmapped_exercises st))
         +:+ "/" +:+ str (len (csv_exercises st)));;
  report_unmapped.

(** [count/len(csv_exercises)*100] and its rendering under [:.1f] *)
Definition percent_value (count : Z) : outcome spec_float :=
  q ← Float.int_truediv count (len (csv_exercises st));
  mret (Float.mul_int q 100).

Definition percent (count : Z) : outcome string :=
  x ← percent_value count; mret (Float.format_1f x).

(** Lines 86-92: the sample of mapped names with their ids. *)
Definition report_sample : Prog unit :=
  if 0 <? mapped_count then
    print (nl +:+ "✅ Sample of successfully mapped exercises:");;
    let mapped_exercises := csv_exercises st ∖ unmapped_exercises st in
    print_each ((λ ex, "   " +:+ ex +:+ " → "
                         +:+ str_get name_to_id (Py.lower ex))
                  <$> take 10 (sorted mapped_exercises))
  else mret tt.

(** Lines 78-92. *)
Definition report_summary : Prog unit :=
  print (nl +:+ rule);;
  print "📊 SUMMARY";;
  print rule;;
  print ("Total unique exercises in CSV: " +:+ str (len (csv_exercises st)));;
  p ← eval (percent mapped_count);
  print ("Successfully mapped: " +:+ str mapped_count
         +:+ " (" +:+ p +:+ "%)");;
  p ← eval (percent (len (unmapped_exercises st)));
  print ("Missing mappings: " +:+ str (len (unmapped_exercises st))
         +:+ " (" +:+ p +:+ "%)");;
  print ("Total workout dates: " +:+ str (len (csv_workouts st)));;
  report_sample.

(** Lines 94-104. *)
Definition report_next_steps : Prog unit :=
  print (nl +:+ rule);;
  print "💡 NEXT STEPS";;
  print rule;;
  if bool_decide (unmapped_exercises st ≠ ∅) then
    print "To fix unmapped exercises:";;
    print "1. Add missing exercises to exercises.json";;
    print "2. Re-run this verification script";;
    print "3. Once all mapped, you can verify against Firebase"
  else
    print "✅ All exercises mapped! Your CSV data is ready for Firebase verification.";;
    print "   Run the Firebase comparison script to verify data integrity.".

(** Lines 57-104. *)
Definition report : Prog unit :=
  print ("✅ Found " +:+ str (len (csv_exercises st))
         +:+ " unique exercises in CSV");;
  print ("✅ Found " +:+ str (len (csv_workouts st))
         +:+ " unique workout dates in CSV" +:+ nl);;
  report_mapping;;
  report_summary;;
  report_next_steps.
End Report.

(** ** The script *)

Definition main (exercises_data : list (string * ExerciseData))
    (csv_file : list (list string)) : Prog unit :=
  print ("🔍 CSV to Firebase Verification Tool" +:+ nl);;
  print "📥 Loading exercises.json...";;
  let name_to_id := build_name_to_id exercises_data in
  print ("✅ Loaded " +:+ str (Z.of_nat (length exercises_data))
         +:+ " exercises from exercises.json" +:+ nl);;
  print "📥 Reading WorkoutExport.csv...";;
  st ← eval (scan_csv name_to_id csv_file);
  report name_to_id st.

(** The keys assigned by one pass through the loop body at lines 24-29:
    line 26 always, line 29 under the guard of line 28. *)
Definition keys_written (data : ExerciseData) : list string :=
  let name := Py.strip (Py.lower (name data)) in
  name ::
  match exportName data with
  | Some en =>
      if Py.truthy en && negb (String.eqb (Py.lower en) name)
      then [Py.strip (Py.lower en)] else []
  | None => []
  end.

(** "Normalized" in the words of the specification: lower-cased, trimmed. *)
Definition normalized (s : string) : string := Py.strip (Py.lower s).

(** Number of entries a dictionary holds under one key. *)
Definition entries_for {V} (k : string) (d : gmap string V) : nat :=
  length (filter (λ kv, kv.1 = k) (map_to_list d)).

(** What the script has printed when the scan starts. *)
Definition preamble (exercises_data : list (string * ExerciseData))
    : list string :=
  ["🔍 CSV to Firebase Verification Tool" +:+ nl;
   "📥 Loading exercises.json...";
   "✅ Loaded " +:+ str (Z.of_nat (length exercises_data))
     +:+ " exercises from exercises.json" +:+ nl;
   "📥 Reading WorkoutExport.csv..."].

(** The facts the loop keeps true of its three collections. *)
Definition scan_inv (name_to_id : gmap string string) (st : scan_state) : Prop :=
  unmapped_exercises st ⊆ csv_exercises st
  ∧ (∀ x, x ∈ csv_exercises st → Py.trimmed x)
  ∧ (∀ x, x ∈ csv_exercises st →
       x ∈ unmapped_exercises st ↔ name_to_id !! Py.lower x = None).

(** The columns the loop body subscripts, in the order it reads them. *)
Definition required_columns : list string :=
  ["Exercise"; "Date"; "Reps"; "Weight(kg)"; "isWarmup"].

(** "[round(x, 1)]" in the words of the specification: [t] tenths is [x]
    rounded to one decimal place, the even count of tenths at a tie. *)
Definition is_round1 (x : Q) (t : Z) : Prop :=
  (Qabs (10 * x - inject_Z t) <= 1 # 2)%Q
  ∧ ((Qabs (10 * x - inject_Z t) == 1 # 2)%Q → Z.even t = true).

(** The exponent of the unit in the last place of binary64 at a number
    [r] that is not negative: the least [e] from [-1074] on with
    [r < 2^(e+53)]. *)
Definition ulp_exponent (r : Q) (e : Z) : Prop :=
  (0 <= r)%Q
  ∧ -1074 ≤ e
  ∧ (r < 2 ^ (e + 53))%Q
  ∧ (e = -1074 ∨ (2 ^ (e + 52) <= r)%Q).

(** "[x] is [r] rounded to binary64", as IEEE 754 defines rounding to
    nearest, ties to even, for [r] not negative and below the overflow
    threshold: [x] is the multiple [n * 2^e] of the unit in the last place
    at [r] that is nearest to [r], with [n] even when two multiples are
    equally near.  Stated over the rationals, with no reference to the
    float operations above. *)
Definition rounded_binary64 (r x : Q) : Prop :=
  ∃ e n,
    ulp_exponent r e
    ∧ (x == inject_Z n * 2 ^ e)%Q
    ∧ (Qabs (r - x) <= 2 ^ e / 2)%Q
    ∧ ((Qabs (r - x) == 2 ^ e / 2)%Q → Z.even n = true).

(** "[round(count / total * 100, 1)]" in the words of the specification,
    with the arithmetic of Python floats written out: [t] tenths is the
    quotient of the two integers rounded to binary64, times 100 and rounded
    to binary64 again, then rounded to one decimal place. *)
Definition percent_tenths (count total t : Z) : Prop :=
  total ≠ 0
  ∧ ∃ q x : Q,
    rounded_binary64 (inject_Z count / inject_Z total) q
    ∧ rounded_binary64 (q * 100) x
    ∧ is_round1 x t.

(** Where a fraction [u/V] of one unit lies: at zero, below one half, at
    one half or above it. *)
Definition loc_of_frac (u V : Z) : location :=
  if u =? 0 then loc_Exact else loc_Inexact (2 * u ?= V).

(** An expression that has a value, whatever it is. *)
Definition succeeds {A} (r : outcome A) : Prop := ∃ a, r = Done a.

(** What the loop body needs of a tokenised row under a header: the
    header names the five columns, and the cells of [Exercise] and [Date]
    are not part of the padding of a short row. *)
Definition row_ok (fieldnames row : list string) : Prop :=
  (∀ c, c ∈ required_columns → c ∈ fieldnames)
  ∧ ("Exercise" ∉ drop (length row) fieldnames)
  ∧ ("Date" ∉ drop (length row) fieldnames).

(** The key and the dictionary a row adds to [csv_workouts]: lines 42-51
    without the updates of the collections. *)
Definition row_entry (row : gmap string cell) : outcome (string * LogEntry) :=
  exercise_name ← getitem row "Exercise" ≫= cell_strip;
  date ← getitem row "Date" ≫= cell_strip;
  reps ← getitem row "Reps";
  weight ← getitem row "Weight(kg)";
  isWarmup ← getitem row "isWarmup";
  mret (date, {| log_name := exercise_name; log_reps := reps;
                 log_weight := weight; log_isWarmup := isWarmup |}).

(** The entries of a list of rows filed under one date, in order. *)
Definition entries_on (d : string) (entries : list (string * LogEntry))
    : list LogEntry :=
  (filter (λ p, p.1 = d) entries).*2.

(** Number of dictionaries held by [csv_workouts], over all dates. *)
Definition total_entries (w : gmap string (list LogEntry)) : nat :=
  map_fold (λ _ l n, (length l + n)%nat) 0%nat w.

(** ** Sample inputs *)

Module Sample.

Definition header : list string :=
  ["Date"; "Exercise"; "Reps"; "Weight(kg)"; "isWarmup"].

(** [{"1": {"name": "Bench Press"}}] *)
Definition bench_press : list (string * ExerciseData) :=
  [("1", {| name := "Bench Press"; exportName := None |})].

(** Two rows, the two spellings of one exercise, on different dates. *)
Definition two_spellings : list (list string) :=
  [header;
   ["2024-01-01"; "bench press"; "5"; "100"; "false"];
   ["2024-01-02"; "Bench Press"; "5"; "102.5"; "false"]].

(** The same with a blank line and a third row for an unknown exercise. *)
Definition with_squat : list (list string) :=
  two_spellings ++ [[]; ["2024-01-02"; " Squat "; "3"; "140"; "true"]].

(** The collections after scanning [with_squat] against [bench_press]. *)
Definition with_squat_state : scan_state :=
  {| csv_exercises := {["bench press"; "Bench Press"; "Squat"]};
     csv_workouts :=
       {["2024-01-01" :=
           [{| log_name := "bench press"; log_reps := Some "5";
               log_weight := Some "100"; log_isWarmup := Some "false" |}];
         "2024-01-02" :=
           [{| log_name := "Bench Press"; log_reps := Some "5";
               log_weight := Some "102.5"; log_isWarmup := Some "false" |};
            {| log_name := "Squat"; log_reps := Some "3";
               log_weight := Some "140"; log_isWarmup := Some "true" |}]]};
     unmapped_exercises := {["Squat"]} |}.

(** The collections after scanning [two_spellings] against [bench_press]. *)
Definition two_spellings_state : scan_state :=
  {| csv_exercises := {["bench press"; "Bench Press"]};
     csv_workouts :=
       {["2024-01-01" :=
           [{| log_name := "bench press"; log_reps := Some "5";
               log_weight := Some "100"; log_isWarmup := Some "false" |}];
         "2024-01-02" :=
           [{| log_name := "Bench Press"; log_reps := Some "5";
               log_weight := Some "102.5"; log_isWarmup := Some "false" |}]]};
     unmapped_exercises := ∅ |}.

(** A row that stops after its third cell, with a space after the date. *)
Definition short_row : list string := ["2024-01-01 "; "Squat"; "5"].

End Sample.

(** * Properties *)

(** ** Facts about [lower] and [strip] *)

Lemma isspace_char_lower c : Py.isspace (Py.char_lower c) = Py.isspace c.
Proof. by destruct c as [[] [] [] [] [] [] [] []]. Qed.

Lemma char_lower_idem c : Py.char_lower (Py.char_lower c) = Py.char_lower c.
Proof. by destruct c as [[] [] [] [] [] [] [] []]. Qed.

Lemma lower_idem s : Py.lower (Py.lower s) = Py.lower s.
Proof. induction s as [|c s IH]; simpl; [done|]. by rewrite char_lower_idem, IH. Qed.

Lemma lower_lstrip s : Py.lower (Py.lstrip s) = Py.lstrip (Py.lower s).
Proof.
  induction s as [|c s IH]; simpl; [done|].
  rewrite isspace_char_lower. by destruct (Py.isspace c).
Qed.

Lemma lower_rstrip s : Py.lower (Py.rstrip s) = Py.rstrip (Py.lower s).
Proof.
  induction s as [|c s IH]; simpl; [done|].
  rewrite <- IH, isspace_char_lower.
  destruct (Py.rstrip s); simpl; [|done]. by destruct (Py.isspace c).
Qed.

Lemma lower_strip s : Py.lower (Py.strip s) = Py.strip (Py.lower s).
Proof. unfold Py.strip. by rewrite lower_rstrip, lower_lstrip. Qed.

Lemma lstrip_starts s : Py.starts_with_space (Py.lstrip s) = false.
Proof.
  induction s as [|c s IH]; simpl; [done|].
  destruct (Py.isspace c) eqn:Hc; [done|]. by simpl.
Qed.

Lemma lstrip_id s : Py.starts_with_space s = false → Py.lstrip s = s.
Proof. destruct s as [|c s]; simpl; [done|]. by intros ->. Qed.

Lemma rstrip_starts s :
  Py.starts_with_space s = false → Py.starts_with_space (Py.rstrip s) = false.
Proof.
  destruct s as [|c s]; simpl; [done|]. intros Hc.
  destruct (Py.rstrip s); simpl; [|done]. by rewrite Hc.
Qed.

Lemma rstrip_cons c s :
  Py.rstrip (String c s) =
  match Py.rstrip s with
  | "" => if Py.isspace c then "" else String c ""
  | r => String c r
  end.
Proof. done. Qed.

Lemma rstrip_ends s : Py.ends_with_space (Py.rstrip s) = false.
Proof.
  induction s as [|c s IH]; [done|]. rewrite rstrip_cons.
  destruct (Py.rstrip s) as [|c' r] eqn:Hr.
  - by destruct (Py.isspace c) eqn:Hc; simpl.
  - exact IH.
Qed.

Lemma rstrip_id s : Py.ends_with_space s = false → Py.rstrip s = s.
Proof.
  induction s as [|c s IH]; [done|].
  destruct s as [|c' s'].
  - simpl. by intros ->.
  - intros Hs. rewrite rstrip_cons. by rewrite (IH Hs).
Qed.

Lemma strip_trimmed s : Py.trimmed (Py.strip s).
Proof.
  split; [apply rstrip_starts, lstrip_starts|apply rstrip_ends].
Qed.

Lemma strip_id s : Py.trimmed s → Py.strip s = s.
Proof. intros [Hl Hr]. unfold Py.strip. by rewrite (lstrip_id _ Hl), rstrip_id. Qed.

Lemma strip_idem s : Py.strip (Py.strip s) = Py.strip s.
Proof. apply strip_id, strip_trimmed. Qed.

(** A dictionary key of the loader is lower-cased and trimmed. *)
Lemma normalized_key s :
  Py.lowercased (Py.strip (Py.lower s)) ∧ Py.trimmed (Py.strip (Py.lower s)).
Proof.
  split; [|apply strip_trimmed].
  unfold Py.lowercased. by rewrite lower_strip, lower_idem.
Qed.

(** ** The loader *)

Lemma name_to_id_step_inserts m ex_id data :
  name_to_id_step m (ex_id, data)
  = foldl (λ d k, <[k := ex_id]> d) m (keys_written data).
Proof.
  unfold name_to_id_step, keys_written.
  destruct (exportName data) as [en|]; [|done].
  by destruct (Py.truthy en && negb (Py.lower en =? _)%string).
Qed.

Lemma inserts_lookup_in (keys : list string) (v : string)
    (m : gmap string string) k :
  k ∈ keys → foldl (λ d k, <[k := v]> d) m keys !! k = Some v.
Proof.
  revert m. induction keys as [|k' keys IH]; intros m Hin; [by inversion Hin|].
  simpl. destruct (decide (k ∈ keys)) as [Hk|Hk]; [by apply IH|].
  assert (k = k') as <- by (by inversion Hin).
  clear IH Hin. revert m. induction keys as [|k2 keys IH]; intros m; simpl.
  - apply lookup_insert_eq.
  - rewrite not_elem_of_cons in Hk. destruct Hk as [Hne Hk].
    rewrite insert_insert_ne by done. by apply IH.
Qed.

Lemma inserts_lookup_notin (keys : list string) (v : string)
    (m : gmap string string) k :
  k ∉ keys → foldl (λ d k, <[k := v]> d) m keys !! k = m !! k.
Proof.
  revert m. induction keys as [|k' keys IH]; intros m Hin; [done|].
  rewrite not_elem_of_cons in Hin. destruct Hin as [Hne Hin].
  simpl. rewrite IH by done. by apply lookup_insert_ne.
Qed.

Lemma name_to_id_step_written m ex_id data k :
  k ∈ keys_written data → name_to_id_step m (ex_id, data) !! k = Some ex_id.
Proof. rewrite name_to_id_step_inserts. apply inserts_lookup_in. Qed.

Lemma name_to_id_step_other m ex_id data k :
  k ∉ keys_written data → name_to_id_step m (ex_id, data) !! k = m !! k.
Proof. rewrite name_to_id_step_inserts. apply inserts_lookup_notin. Qed.

Lemma name_to_id_later_untouched m items k :
  Forall (λ item, k ∉ keys_written item.2) items →
  foldl name_to_id_step m items !! k = m !! k.
Proof.
  intros Hall. revert m.
  induction Hall as [|[ex_id data] items Hk _ IH]; intros m; [done|].
  simpl. rewrite IH. by apply name_to_id_step_other.
Qed.

(** Which keys a record writes, in terms of its two labels. *)
Lemma keys_written_spec data k :
  k ∈ keys_written data ↔
  k = normalized (name data) ∨
  ∃ en, exportName data = Some en ∧ en ≠ "" ∧ k = normalized en.
Proof.
  unfold keys_written, normalized. rewrite elem_of_cons.
  destruct (exportName data) as [en|].
  - destruct (decide (en = "")) as [->|Hen].
    { cbn [Py.truthy andb]. rewrite elem_of_nil. naive_solver. }
    replace (Py.truthy en) with true by (by destruct en).
    cbn [andb].
    destruct (String.eqb_spec (Py.lower en)
                (Py.strip (Py.lower (name data)))) as [Heq|Hne]; cbn [negb].
    + rewrite elem_of_nil. split; [naive_solver|].
      intros [->|(en' & [= <-] & _ & ->)]; [by left|left].
      by rewrite Heq, strip_idem.
    + rewrite list_elem_of_singleton. split.
      * intros [-> | ->]; [by left|right]. by exists en.
      * intros [->|(en' & [= <-] & _ & ->)]; [by left|by right].
  - rewrite elem_of_nil. naive_solver.
Qed.

Lemma filter_key_absent {V} (l : list (string * V)) k :
  k ∉ l.*1 → filter (λ kv, kv.1 = k) l = [].
Proof.
  induction l as [|[k' v'] l IH]; [done|].
  rewrite fmap_cons, not_elem_of_cons. simpl. intros [Hne Hk].
  rewrite filter_cons. simpl. destruct (decide (k' = k)); [done|]. by apply IH.
Qed.

Lemma entries_for_lookup {V} (d : gmap string V) k v :
  d !! k = Some v → entries_for k d = 1%nat.
Proof.
  intros Hk. unfold entries_for.
  apply elem_of_map_to_list in Hk.
  pose proof (NoDup_fst_map_to_list d) as Hnd.
  induction (map_to_list d) as [|[k' v'] l IH]; [by inversion Hk|].
  rewrite fmap_cons, NoDup_cons in Hnd. destruct Hnd as [Hk' Hnd].
  rewrite filter_cons. simpl in *.
  destruct (decide (k' = k)) as [->|Hne].
  - simpl. by rewrite filter_key_absent.
  - apply IH; [|done]. inversion Hk; by subst.
Qed.

(** C3, as stated, fails on the code: a record whose [exportName] is the
    empty string has a normalized export name (the empty string) different
    from its normalized name, yet no alias is written for it, since the
    guard of line 28 tests the truth value of [data.get('exportName')]. *)
Lemma C3_empty_exportName_no_alias :
  let data := {| name := "Bench Press"; exportName := Some "" |} in
  exportName data = Some ""
  ∧ normalized "" ≠ normalized (name data)
  ∧ name_to_id_step ∅ ("1", data) !! normalized "" = None.
Proof. by vm_compute. Qed.

(** C3, amended: for a record with an [exportName] that is present and not
    the empty string, the loop body writes the normalized export name as a
    second key for the record's id when it differs from the normalized
    name, and writes nothing beyond the name's key when the two normalized
    forms are equal; an empty [exportName] is treated like an absent one. *)
Theorem C3_exportName_alias (m : gmap string string) ex_id data en :
  exportName data = Some en →
  (en ≠ "" → normalized en ≠ normalized (name data) →
     name_to_id_step m (ex_id, data) !! normalized en = Some ex_id
     ∧ name_to_id_step m (ex_id, data)
       = <[normalized en := ex_id]> (<[normalized (name data) := ex_id]> m))
  ∧ (normalized en = normalized (name data) →
     name_to_id_step m (ex_id, data) = <[normalized (name data) := ex_id]> m)
  ∧ (en = "" →
     name_to_id_step m (ex_id, data) = <[normalized (name data) := ex_id]> m).
Proof.
  intros Hen. unfold name_to_id_step, normalized. rewrite Hen.
  split; [|split].
  - intros Hne Hdiff.
    replace (Py.truthy en) with true by (by destruct en). cbn [andb].
    destruct (String.eqb_spec (Py.lower en)
                (Py.strip (Py.lower (name data)))) as [Heq|_]; cbn [negb].
    + destruct Hdiff. by rewrite Heq, strip_idem.
    + split; [apply lookup_insert_eq|done].
  - intros ->.
    destruct (Py.truthy en && negb (Py.lower en =? _)%string); [|done].
    apply insert_insert_eq.
  - by intros ->.
Qed.

Lemma C3_exportName_alias_witness :
  name_to_id_step ∅ ("7", {| name := "Bench Press"; exportName := Some " BP" |})
    !! "bp" = Some "7".
Proof.
  apply (C3_exportName_alias ∅ "7"
           {| name := "Bench Press"; exportName := Some " BP" |} " BP" eq_refl);
    by vm_compute.
Defined.

(** C6: when several records write the same key, the dictionary built by
    the loader maps the key to the id of the last record that writes it,
    and holds one entry for the key. *)
Theorem C6_last_write_wins pre ex_id data post k :
  k ∈ keys_written data →
  Forall (λ item, k ∉ keys_written item.2) post →
  build_name_to_id (pre ++ (ex_id, data) :: post) !! k = Some ex_id
  ∧ entries_for k (build_name_to_id (pre ++ (ex_id, data) :: post)) = 1%nat.
Proof.
  intros Hk Hpost.
  assert (build_name_to_id (pre ++ (ex_id, data) :: post) !! k = Some ex_id)
    as Hlook.
  { unfold build_name_to_id. rewrite foldl_app. simpl.
    rewrite name_to_id_later_untouched by done.
    by apply name_to_id_step_written. }
  split; [done|]. by eapply entries_for_lookup.
Qed.

Lemma C6_last_write_wins_witness :
  let exercises_data :=
    [("1", {| name := "Bench Press"; exportName := None |});
     ("2", {| name := "Flat Bench"; exportName := Some " BENCH press " |});
     ("3", {| name := "Squat"; exportName := Some "" |})] in
  build_name_to_id exercises_data !! "bench press" = Some "2"
  ∧ entries_for "bench press" (build_name_to_id exercises_data) = 1%nat.
Proof.
  apply (C6_last_write_wins
           [("1", {| name := "Bench Press"; exportName := None |})]
           "2" {| name := "Flat Bench"; exportName := Some " BENCH press " |}
           [("3", {| name := "Squat"; exportName := Some "" |})]
           "bench press").
  - apply (bool_decide_unpack _). by vm_compute.
  - apply (bool_decide_unpack _). by vm_compute.
Defined.

(** ** The scanner *)

(** What a pass through the loop body that does not raise has done. *)
Lemma scan_step_Done name_to_id st row st' :
  scan_step name_to_id st row = Done st' →
  ∃ e d reps weight isWarmup,
    row !! "Exercise" = Some (Some e) ∧ row !! "Date" = Some (Some d)
    ∧ row !! "Reps" = Some reps ∧ row !! "Weight(kg)" = Some weight
    ∧ row !! "isWarmup" = Some isWarmup
    ∧ csv_exercises st' = {[Py.strip e]} ∪ csv_exercises st
    ∧ csv_workouts st'
      = defaultdict_append (csv_workouts st) (Py.strip d)
          {| log_name := Py.strip e; log_reps := reps;
             log_weight := weight; log_isWarmup := isWarmup |}
    ∧ unmapped_exercises st'
      = match name_to_id !! Py.lower (Py.strip e) with
        | Some _ => unmapped_exercises st
        | None => {[Py.strip e]} ∪ unmapped_exercises st
        end.
Proof.
  unfold scan_step, getitem, cell_strip.
  destruct (row !! "Exercise") as [[e|]|]; [|done..].
  destruct (row !! "Date") as [[d|]|]; [|done..].
  destruct (row !! "Reps") as [reps|]; [|done].
  destruct (row !! "Weight(kg)") as [weight|]; [|done].
  destruct (row !! "isWarmup") as [isWarmup|]; [|done].
  intros [= <-]. by exists e, d, reps, weight, isWarmup.
Qed.

Lemma scan_rows_invariant name_to_id (P : scan_state → Prop) :
  (∀ st row st', P st → scan_step name_to_id st row = Done st' → P st') →
  ∀ rows st st', P st → scan_rows name_to_id st rows = Done st' → P st'.
Proof.
  intros Hstep rows. induction rows as [|row rows IH]; intros st st' HP; simpl.
  - by intros [= <-].
  - destruct (scan_step name_to_id st row) as [st1|] eqn:H1; [|done].
    apply IH. by eapply Hstep.
Qed.

Lemma scan_inv_init name_to_id : scan_inv name_to_id scan_init.
Proof. unfold scan_inv, scan_init; simpl. set_solver. Qed.

Lemma scan_inv_step name_to_id st row st' :
  scan_inv name_to_id st → scan_step name_to_id st row = Done st' →
  scan_inv name_to_id st'.
Proof.
  intros (Hsub & Htrim & Hcls) Hstep.
  apply scan_step_Done in Hstep
    as (e & d & reps & weight & isWarmup & _ & _ & _ & _ & _ & Hex & _ & Hun).
  unfold scan_inv. rewrite Hex, Hun. split; [|split].
  - destruct (name_to_id !! _); set_solver.
  - intros x [->%elem_of_singleton|Hx]%elem_of_union;
      [apply strip_trimmed|by apply Htrim].
  - intros x Hx.
    destruct (name_to_id !! Py.lower (Py.strip e)) as [i|] eqn:Hlook.
    + apply elem_of_union in Hx as [->%elem_of_singleton|Hx].
      * rewrite Hlook. split; [|done]. intros Hin.
        apply Hcls in Hin; [congruence|by apply Hsub].
      * by apply Hcls.
    + apply elem_of_union in Hx as [->%elem_of_singleton|Hx].
      * split; [done|]. set_solver.
      * rewrite elem_of_union, elem_of_singleton. split.
        -- intros [->|Hin]; [done|]. by apply Hcls.
        -- intros Hnone. right. by apply Hcls.
Qed.

Lemma scan_csv_inv name_to_id f st :
  scan_csv name_to_id f = Done st → scan_inv name_to_id st.
Proof.
  unfold scan_csv.
  apply (scan_rows_invariant name_to_id (scan_inv name_to_id)).
  - intros ????. by apply scan_inv_step.
  - apply scan_inv_init.
Qed.

Lemma scan_csv_counts name_to_id f st :
  scan_csv name_to_id f = Done st →
  0 ≤ len (unmapped_exercises st) ≤ len (csv_exercises st).
Proof.
  intros (Hsub & _)%scan_csv_inv. apply subseteq_size in Hsub.
  unfold len. lia.
Qed.

(** C4: after the scan the unmapped names are among the names seen, the
    mapped count is the difference of the two sizes, it adds up with the
    number of unmapped names to the number of names seen, and it is not
    negative. *)
Theorem C4_mapped_plus_unmapped exercises_data csv_file st :
  scan_csv (build_name_to_id exercises_data) csv_file = Done st →
  unmapped_exercises st ⊆ csv_exercises st
  ∧ mapped_count st = len (csv_exercises st) - len (unmapped_exercises st)
  ∧ mapped_count st + len (unmapped_exercises st) = len (csv_exercises st)
  ∧ 0 ≤ mapped_count st.
Proof.
  intros Hscan. pose proof (scan_csv_counts _ _ _ Hscan) as Hcount.
  apply scan_csv_inv in Hscan as (Hsub & _).
  split; [done|]. unfold mapped_count. lia.
Qed.

Example scan_with_squat :
  scan_csv (build_name_to_id Sample.bench_press) Sample.with_squat
  = Done Sample.with_squat_state.
Proof. by vm_compute. Qed.

Lemma C4_mapped_plus_unmapped_witness :
  mapped_count Sample.with_squat_state
  + len (unmapped_exercises Sample.with_squat_state)
  = len (csv_exercises Sample.with_squat_state).
Proof.
  apply (C4_mapped_plus_unmapped Sample.bench_press Sample.with_squat).
  by vm_compute.
Defined.

Lemma elem_of_sorted (s : gset string) x : x ∈ sorted s ↔ x ∈ s.
Proof. unfold sorted. by rewrite merge_sort_Permutation, elem_of_elements. Qed.

(** C9: every name that was seen and not recorded as unmapped has its
    lower-cased form in the dictionary, so each line of the sample of
    mapped names shows an id of the dictionary. *)
Theorem C9_mapped_names_resolve exercises_data csv_file st :
  let name_to_id := build_name_to_id exercises_data in
  scan_csv name_to_id csv_file = Done st →
  (∀ ex, ex ∈ csv_exercises st ∖ unmapped_exercises st →
     is_Some (name_to_id !! Py.lower ex))
  ∧ Forall (λ line, ∃ ex ex_id,
              ex ∈ csv_exercises st ∖ unmapped_exercises st
              ∧ name_to_id !! Py.lower ex = Some ex_id
              ∧ line = "   " +:+ ex +:+ " → " +:+ ex_id)
      (drop 1 (stdout (report_sample name_to_id st))).
Proof.
  intros name_to_id (_ & _ & Hcls)%scan_csv_inv.
  assert (∀ ex, ex ∈ csv_exercises st ∖ unmapped_exercises st →
            is_Some (name_to_id !! Py.lower ex)) as Hres.
  { intros ex [Hin Hnot]%elem_of_difference.
    apply not_eq_None_Some. intros Hnone. by apply Hnot, Hcls. }
  split; [done|].
  unfold report_sample. destruct (0 <? mapped_count st); [|by constructor].
  simpl. apply Forall_fmap, Forall_forall. intros ex Hex.
  apply (subseteq_take 10), elem_of_sorted in Hex.
  destruct (Hres ex Hex) as [ex_id Hid].
  exists ex, ex_id. unfold str_get. by rewrite Hid.
Qed.

Lemma C9_mapped_names_resolve_witness :
  is_Some (build_name_to_id Sample.bench_press !! Py.lower "Bench Press").
Proof.
  apply (C9_mapped_names_resolve Sample.bench_press Sample.with_squat
           Sample.with_squat_state).
  - by vm_compute.
  - apply (bool_decide_unpack _). by vm_compute.
Defined.

Lemma name_to_id_keys exercises_data k :
  is_Some (build_name_to_id exercises_data !! k) →
  Py.lowercased k ∧ Py.trimmed k.
Proof.
  unfold build_name_to_id.
  assert (∀ m : gmap string string,
            (∀ k, is_Some (m !! k) → Py.lowercased k ∧ Py.trimmed k) →
            ∀ k, is_Some (foldl name_to_id_step m exercises_data !! k) →
                 Py.lowercased k ∧ Py.trimmed k) as Hgen.
  { induction exercises_data as [|[ex_id data] items IH]; intros m Hm; [done|].
    cbn [foldl]. apply IH. intros k'.
    destruct (decide (k' ∈ keys_written data)) as [Hin|Hout].
    - intros _. apply keys_written_spec in Hin as [->|(en & _ & _ & ->)];
        apply normalized_key.
    - rewrite name_to_id_step_other by done. apply Hm. }
  apply Hgen. intros k'. rewrite lookup_empty. by intros [? ?].
Qed.

(** C10: every key of the dictionary is lower-cased and has no leading or
    trailing whitespace, and every name in the set of names seen, hence in
    the set of unmapped names, has no leading or trailing whitespace.  The
    statement holds for every list of records and every list of rows, so
    also for the dictionary and the sets after each pass of the two loops. *)
Theorem C10_keys_and_names_trimmed exercises_data csv_file st :
  let name_to_id := build_name_to_id exercises_data in
  (∀ k, k ∈ dom name_to_id → Py.lowercased k ∧ Py.trimmed k)
  ∧ (scan_csv name_to_id csv_file = Done st →
       (∀ x, x ∈ csv_exercises st → Py.trimmed x)
       ∧ (∀ x, x ∈ unmapped_exercises st → Py.trimmed x)).
Proof.
  intros name_to_id. split.
  - intros k Hk%elem_of_dom. by eapply name_to_id_keys.
  - intros (Hsub & Htrim & _)%scan_csv_inv. split; [done|].
    intros x Hx. by apply Htrim, Hsub.
Qed.

Lemma C10_keys_and_names_trimmed_witness : Py.trimmed "Squat".
Proof.
  apply (C10_keys_and_names_trimmed Sample.bench_press Sample.with_squat
           Sample.with_squat_state).
  - by vm_compute.
  - apply (bool_decide_unpack _). by vm_compute.
Defined.

(** ** The report *)

Lemma stdout_print_bind {A} (s : string) (k : Prog A) :
  stdout (print s;; k) = s :: stdout k.
Proof. by destruct k. Qed.

Lemma sorted_Sorted (s : gset string) : Sorted String.le (sorted s).
Proof. apply (Sorted_merge_sort String.le). Qed.

Lemma sorted_NoDup (s : gset string) : NoDup (sorted s).
Proof.
  unfold sorted. rewrite merge_sort_Permutation. apply NoDup_elements.
Qed.

Lemma sorted_length (s : gset string) : length (sorted s) = size s.
Proof. unfold sorted. by rewrite merge_sort_Permutation. Qed.

(** [sorted] lists the set in strictly ascending order of [String.ltb],
    the comparison of strings character by character, by code point. *)
Lemma sorted_ascending (s : gset string) :
  StronglySorted (λ a b, String.ltb a b = true) (sorted s).
Proof.
  pose proof (Sorted_StronglySorted _ _ (sorted_Sorted s)) as Hs.
  pose proof (sorted_NoDup s) as Hnd.
  induction Hs as [|a l _ IH Hall]; [constructor|].
  apply NoDup_cons in Hnd as [Ha Hnd].
  constructor; [by apply IH|].
  apply Forall_forall. intros b Hb.
  rewrite Forall_forall in Hall. specialize (Hall b Hb).
  unfold String.le, String.leb in Hall. unfold String.ltb.
  destruct (String.compare a b) eqn:Hc; [|done..].
  apply String.compare_eq_iff in Hc. by subst.
Qed.

(** C5: when some name is unmapped, the report shows a warning line, then
    the unmapped names in strictly ascending order of their raw strings,
    the first 20 of them at most, then a notice with the number of names
    left out when there are more than 20.  With 25 names it shows 20 names
    and the notice for 5 more; with 20 names or fewer it shows them all
    and no notice. *)
Theorem C5_unmapped_listing st :
  unmapped_exercises st ≠ ∅ →
  ∃ names,
    StronglySorted (λ a b, String.ltb a b = true) names
    ∧ (∀ x, x ∈ names ↔ x ∈ unmapped_exercises st)
    ∧ Z.of_nat (length names) = len (unmapped_exercises st)
    ∧ stdout (report_unmapped st)
      = [nl +:+ "⚠️  WARNING: " +:+ str (len (unmapped_exercises st))
         +:+ " exercises in CSV have no mapping:"]
        ++ ((λ ex, "   - " +:+ ex) <$> take 20 names)
        ++ (if 20 <? len (unmapped_exercises st)
            then ["   ... and " +:+ str (len (unmapped_exercises st) - 20)
                  +:+ " more"]
            else [])
    ∧ (len (unmapped_exercises st) = 25 →
         length (take 20 names) = 20%nat
         ∧ drop 21 (stdout (report_unmapped st)) = ["   ... and 5 more"])
    ∧ (len (unmapped_exercises st) ≤ 20 →
         drop 1 (stdout (report_unmapped st))
         = (λ ex, "   - " +:+ ex) <$> names).
Proof.
  intros Hne. exists (sorted (unmapped_exercises st)).
  assert (stdout (report_unmapped st)
      = [nl +:+ "⚠️  WARNING: " +:+ str (len (unmapped_exercises st))
         +:+ " exercises in CSV have no mapping:"]
        ++ ((λ ex, "   - " +:+ ex) <$> take 20 (sorted (unmapped_exercises st)))
        ++ (if 20 <? len (unmapped_exercises st)
            then ["   ... and " +:+ str (len (unmapped_exercises st) - 20)
                  +:+ " more"]
            else [])) as Hout.
  { unfold report_unmapped. rewrite bool_decide_eq_true_2 by done.
    rewrite stdout_print_bind. simpl. f_equal.
    destruct (20 <? len (unmapped_exercises st)); simpl; [done|].
    by rewrite app_nil_r. }
  assert (Z.of_nat (length (sorted (unmapped_exercises st)))
          = len (unmapped_exercises st)) as Hlen.
  { unfold len. by rewrite sorted_length. }
  split; [apply sorted_ascending|]. split; [apply elem_of_sorted|].
  split; [done|]. split; [done|]. split.
  - intros H25. rewrite Hout, H25.
    assert (length (take 20 (sorted (unmapped_exercises st))) = 20%nat) as Ht.
    { rewrite length_take. lia. }
    split; [done|]. simpl.
    rewrite drop_app_length'; [done|]. by rewrite length_fmap.
  - intros H20. rewrite Hout. simpl.
    rewrite take_ge by lia.
    destruct (20 <? len (unmapped_exercises st)) eqn:Hlt; [lia|].
    by rewrite app_nil_r.
Qed.

Lemma C5_unmapped_listing_witness :
  ∃ names : list string,
    ∀ x, x ∈ names ↔ x ∈ unmapped_exercises Sample.with_squat_state.
Proof.
  destruct (C5_unmapped_listing Sample.with_squat_state)
    as (names & _ & Hnames & _).
  - apply (bool_decide_unpack _). by vm_compute.
  - by exists names.
Defined.

Lemma main_unfold exercises_data csv_file :
  main exercises_data csv_file
  = match scan_csv (build_name_to_id exercises_data) csv_file with
    | Done st =>
        match report (build_name_to_id exercises_data) st with
        | Run o r => Run (preamble exercises_data ++ o) r
        end
    | Raised e => Run (preamble exercises_data) (Raised e)
    end.
Proof.
  unfold main, preamble.
  destruct (scan_csv (build_name_to_id exercises_data) csv_file) as [st|e];
    simpl; [|done].
  by destruct (report (build_name_to_id exercises_data) st).
Qed.

Lemma report_nothing_scanned name_to_id :
  report name_to_id scan_init
  = Run ["✅ Found 0 unique exercises in CSV";
         "✅ Found 0 unique workout dates in CSV" +:+ nl;
         rule;
         "📊 EXERCISE MAPPING VERIFICATION";
         rule;
         "✅ Mapped exercises: 0/0";
         "❌ Unmapped exercises: 0/0";
         nl +:+ "🎉 All exercises in CSV have been mapped to unique IDs!";
         nl +:+ rule;
         "📊 SUMMARY";
         rule;
         "Total unique exercises in CSV: 0"]
        (Raised ZeroDivisionError).
Proof. by vm_compute. Qed.

(** C2: when the CSV has no data row, the script prints the counts
    [0/0], reaches the summary, and stops with [ZeroDivisionError] while
    it evaluates the first percentage: the last line printed is the total
    of the summary, and no line with a percentage follows. *)
Theorem C2_empty_csv_zero_division exercises_data csv_file :
  DictReader csv_file = [] →
  main exercises_data csv_file
  = Run (preamble exercises_data ++
         ["✅ Found 0 unique exercises in CSV";
          "✅ Found 0 unique workout dates in CSV" +:+ nl;
          rule;
          "📊 EXERCISE MAPPING VERIFICATION";
          rule;
          "✅ Mapped exercises: 0/0";
          "❌ Unmapped exercises: 0/0";
          nl +:+ "🎉 All exercises in CSV have been mapped to unique IDs!";
          nl +:+ rule;
          "📊 SUMMARY";
          rule;
          "Total unique exercises in CSV: 0"])
        (Raised ZeroDivisionError).
Proof.
  intros Hrows. rewrite main_unfold. unfold scan_csv. rewrite Hrows. simpl.
  by rewrite report_nothing_scanned.
Qed.

Lemma C2_empty_csv_zero_division_witness :
  res (main Sample.bench_press [Sample.header; []]) = Raised ZeroDivisionError.
Proof.
  by rewrite (C2_empty_csv_zero_division Sample.bench_press
                [Sample.header; []] eq_refl).
Defined.

(** ** Rows with a missing column *)

Lemma inserts_keys {A V} (f : A → string) (g : A → V) (l : list A)
    (d : gmap string V) k :
  is_Some (foldl (λ d a, <[f a := g a]> d) d l !! k)
  ↔ is_Some (d !! k) ∨ k ∈ f <$> l.
Proof.
  revert d. induction l as [|a l IH]; intros d; simpl.
  - rewrite elem_of_nil. naive_solver.
  - rewrite IH, elem_of_cons, lookup_insert_is_Some. 
    destruct (decide (f a = k)); naive_solver.
Qed.

(** The keys of a row are the field names. *)
Lemma make_row_keys fieldnames row k :
  is_Some (make_row fieldnames row !! k) ↔ k ∈ fieldnames.
Proof.
  unfold make_row.
  pose proof (inserts_keys id (λ _ : string, @None string)) as Hpad.
  pose proof (inserts_keys fst (λ kv : string * string, Some kv.2)) as Hzip.
  cbv beta delta [id] in Hpad. cbv beta in Hzip.
  rewrite Hpad, Hzip, lookup_empty, list_fmap_id.
  rewrite <- (take_drop (length row) fieldnames) at 3.
  rewrite elem_of_app.
  assert ((zip fieldnames row).*1 = take (length row) fieldnames) as ->.
  { revert row. induction fieldnames as [|x xs IH]; intros [|y ys]; simpl;
      try done. by rewrite IH. }
  split; [intros [[[? [=]]|?]|?]; auto|intros [?|?]; auto].
Qed.

Lemma make_row_missing fieldnames row k :
  k ∉ fieldnames → make_row fieldnames row !! k = None.
Proof.
  intros Hk. apply eq_None_not_Some. by rewrite make_row_keys.
Qed.

(** A row without one of the subscripted keys makes the loop body raise,
    whatever the collections hold. *)
Lemma scan_step_missing name_to_id st row col :
  col ∈ required_columns → row !! col = None →
  ∃ e, scan_step name_to_id st row = Raised e
       ∧ (e = AttributeError
          ∨ ∃ c, c ∈ required_columns ∧ row !! c = None ∧ e = KeyError c).
Proof.
  intros Hcol Hnone. unfold scan_step, getitem, cell_strip.
  assert (∀ c, c ∈ required_columns → row !! c = None →
            ∃ e, Raised (A := scan_state) (KeyError c) = Raised e
                 ∧ (e = AttributeError
                    ∨ ∃ c, c ∈ required_columns ∧ row !! c = None
                           ∧ e = KeyError c)) as Hkey.
  { intros c Hc Hrow. exists (KeyError c). split; [done|right]. by exists c. }
  assert (∃ e, Raised (A := scan_state) AttributeError = Raised e
               ∧ (e = AttributeError
                  ∨ ∃ c, c ∈ required_columns ∧ row !! c = None
                         ∧ e = KeyError c)) as Hattr.
  { exists AttributeError. by split; [|left]. }
  destruct (row !! "Exercise") as [[e|]|] eqn:H1; simpl;
    [|done|apply Hkey; [set_solver|done]].
  destruct (row !! "Date") as [[d|]|] eqn:H2; simpl;
    [|done|apply Hkey; [set_solver|done]].
  destruct (row !! "Reps") as [reps|] eqn:H3; simpl;
    [|apply Hkey; [set_solver|done]].
  destruct (row !! "Weight(kg)") as [weight|] eqn:H4; simpl;
    [|apply Hkey; [set_solver|done]].
  destruct (row !! "isWarmup") as [isWarmup|] eqn:H5; simpl;
    [|apply Hkey; [set_solver|done]].
  unfold required_columns in Hcol.
  repeat (apply elem_of_cons in Hcol as [->|Hcol]; [congruence|]).
  by apply elem_of_nil in Hcol.
Qed.

(** C7: when the header lacks one of the columns [Exercise], [Date],
    [Reps], [Weight(kg)], [isWarmup] and the file has a data row, the loop
    body raises on the first data row: a [KeyError] for a column the
    header lacks (or the [AttributeError] of [None.strip()] when a short
    row comes first).  No value stands in for the missing column, the scan
    yields no collections, and the script stops before the report. *)
Theorem C7_missing_column_raises exercises_data fieldnames rows col :
  let name_to_id := build_name_to_id exercises_data in
  col ∈ required_columns → col ∉ fieldnames →
  (∃ row, row ∈ rows ∧ row ≠ []) →
  ∃ e row0 rest,
    DictReader (fieldnames :: rows) = make_row fieldnames row0 :: rest
    ∧ scan_step name_to_id scan_init (make_row fieldnames row0) = Raised e
    ∧ (e = AttributeError
       ∨ ∃ c, c ∈ required_columns ∧ (c ∉ fieldnames) ∧ e = KeyError c)
    ∧ scan_csv name_to_id (fieldnames :: rows) = Raised e
    ∧ main exercises_data (fieldnames :: rows)
      = Run (preamble exercises_data) (Raised e).
Proof.
  intros name_to_id Hcol Hmiss (row & Hin & Hne).
  destruct (filter (λ r, r ≠ []) rows) as [|row0 rest] eqn:Hf.
  { assert (row ∈ filter (λ r, r ≠ []) rows) as Hrow
      by (by apply list_elem_of_filter).
    rewrite Hf in Hrow. by apply elem_of_nil in Hrow. }
  destruct (scan_step_missing name_to_id scan_init
              (make_row fieldnames row0) col Hcol
              (make_row_missing _ _ _ Hmiss)) as (e & Hstep & He).
  exists e, row0, (make_row fieldnames <$> rest).
  assert (scan_csv name_to_id (fieldnames :: rows) = Raised e) as Hscan.
  { unfold scan_csv, DictReader. rewrite Hf. simpl. by rewrite Hstep. }
  split; [by unfold DictReader; rewrite Hf|]. split; [done|]. split.
  { destruct He as [->|(c & Hc & Hnone & ->)]; [by left|right].
    exists c. split; [done|]. split; [|done].
    intros Hc'. apply (make_row_keys fieldnames row0) in Hc'.
    rewrite Hnone in Hc'. by destruct Hc'. }
  split; [done|]. rewrite main_unfold. fold name_to_id. by rewrite Hscan.
Qed.

Lemma C7_missing_column_raises_witness :
  ∃ e, res (main Sample.bench_press
              [["Date"; "Exercise"; "Reps"; "isWarmup"];
               ["2024-01-01"; "Bench Press"; "5"; "false"]]) = Raised e.
Proof.
  destruct (C7_missing_column_raises Sample.bench_press
              ["Date"; "Exercise"; "Reps"; "isWarmup"]
              [["2024-01-01"; "Bench Press"; "5"; "false"]] "Weight(kg)")
    as (e & _ & _ & _ & _ & _ & _ & Hmain).
  - apply (bool_decide_unpack _). by vm_compute.
  - apply (bool_decide_unpack _). by vm_compute.
  - eexists. split; [apply list_elem_of_here|done].
  - exists e. by rewrite Hmain.
Defined.

(** ** The two spellings of one exercise *)

(** C1, as stated, fails on the code: the set of names holds the two
    spellings as two strings, so the script counts 2 unique exercises and
    reports 2 of 2 mapped, not 1. *)
Lemma C1_two_spellings_counted_twice :
  scan_csv (build_name_to_id Sample.bench_press) Sample.two_spellings
  = Done Sample.two_spellings_state
  ∧ len (csv_exercises Sample.two_spellings_state) = 2
  ∧ len (csv_exercises Sample.two_spellings_state) ≠ 1
  ∧ stdout (main Sample.bench_press Sample.two_spellings) !! 4%nat
    = Some "✅ Found 2 unique exercises in CSV"
  ∧ stdout (main Sample.bench_press Sample.two_spellings) !! 9%nat
    = Some "✅ Mapped exercises: 2/2".
Proof. by vm_compute. Qed.

(** A full row under the sample header makes the loop body succeed. *)
Lemma scan_step_full_row name_to_id st d e r w u :
  scan_step name_to_id st (make_row Sample.header [d; e; r; w; u])
  = Done
      {| csv_exercises := {[Py.strip e]} ∪ csv_exercises st;
         csv_workouts :=
           defaultdict_append (csv_workouts st) (Py.strip d)
             {| log_name := Py.strip e; log_reps := Some r;
                log_weight := Some w; log_isWarmup := Some u |};
         unmapped_exercises :=
           match name_to_id !! Py.lower (Py.strip e) with
           | Some _ => unmapped_exercises st
           | None => {[Py.strip e]} ∪ unmapped_exercises st
           end |}.
Proof.
  unfold scan_step, getitem.
  assert (make_row Sample.header [d; e; r; w; u] !! "Exercise" = Some (Some e))
    as -> by (by vm_compute).
  assert (make_row Sample.header [d; e; r; w; u] !! "Date" = Some (Some d))
    as -> by (by vm_compute).
  assert (make_row Sample.header [d; e; r; w; u] !! "Reps" = Some (Some r))
    as -> by (by vm_compute).
  assert (make_row Sample.header [d; e; r; w; u] !! "Weight(kg)"
          = Some (Some w)) as -> by (by vm_compute).
  assert (make_row Sample.header [d; e; r; w; u] !! "isWarmup"
          = Some (Some u)) as -> by (by vm_compute).
  done.
Qed.

Lemma stdout_bind_prefix {A B} (m : Prog A) (k : A → Prog B) :
  ∃ rest, stdout (m ≫= k) = stdout m ++ rest.
Proof.
  destruct m as [o [a|e]]; simpl.
  - destruct (k a) as [o' r]. by exists o'.
  - exists []. by rewrite app_nil_r.
Qed.

(** The first seven lines of the report, in terms of the three sizes. *)
Lemma report_head name_to_id st :
  ∃ rest,
    stdout (report name_to_id st)
    = ["✅ Found " +:+ str (len (csv_exercises st))
         +:+ " unique exercises in CSV";
       "✅ Found " +:+ str (len (csv_workouts st))
         +:+ " unique workout dates in CSV" +:+ nl;
       rule;
       "📊 EXERCISE MAPPING VERIFICATION";
       rule;
       "✅ Mapped exercises: " +:+ str (mapped_count st) +:+ "/"
         +:+ str (len (csv_exercises st));
       "❌ Unmapped exercises: " +:+ str (len (unmapped_exercises st))
         +:+ "/" +:+ str (len (csv_exercises st))] ++ rest.
Proof.
  unfold report. rewrite !stdout_print_bind.
  destruct (stdout_bind_prefix (report_mapping st)
              (λ _, report_summary name_to_id st;; report_next_steps st))
    as [rest ->].
  unfold report_mapping. rewrite !stdout_print_bind.
  exists (stdout (report_unmapped st) ++ rest). by simplify_list_eq.
Qed.

(** C1, amended: for the dictionary [{"1": {"name": "Bench Press"}}] and
    a CSV of two rows, one for [bench press] and one for [Bench Press], on
    two dates that differ after trimming, the scan finds 2 names (the two
    spellings), none of them unmapped, and 2 dates; the script reports 2
    unique exercises, 2 unique workout dates and 2/2 mapped. *)
Theorem C1_two_spellings_report d1 d2 r1 w1 u1 r2 w2 u2 :
  let csv_file :=
    [Sample.header; [d1; "bench press"; r1; w1; u1];
                    [d2; "Bench Press"; r2; w2; u2]] in
  Py.strip d1 ≠ Py.strip d2 →
  ∃ st rest,
    scan_csv (build_name_to_id Sample.bench_press) csv_file = Done st
    ∧ csv_exercises st = {["bench press"; "Bench Press"]}
    ∧ len (csv_exercises st) = 2
    ∧ len (unmapped_exercises st) = 0
    ∧ mapped_count st = 2
    ∧ len (csv_workouts st) = 2
    ∧ stdout (main Sample.bench_press csv_file)
      = preamble Sample.bench_press ++
        ["✅ Found 2 unique exercises in CSV";
         "✅ Found 2 unique workout dates in CSV" +:+ nl;
         rule;
         "📊 EXERCISE MAPPING VERIFICATION";
         rule;
         "✅ Mapped exercises: 2/2";
         "❌ Unmapped exercises: 0/2"] ++ rest.
Proof.
  intros csv_file Hdates.
  assert (∃ st,
    scan_csv (build_name_to_id Sample.bench_press) csv_file = Done st
    ∧ csv_exercises st = {["bench press"; "Bench Press"]}
    ∧ unmapped_exercises st = ∅
    ∧ len (csv_workouts st) = 2) as (st & Hscan & Hex & Hun & Hdt).
  { unfold scan_csv, csv_file, DictReader.
    rewrite !filter_cons, filter_nil.
    repeat (rewrite decide_True by done).
    rewrite !fmap_cons. cbn [scan_rows].
    rewrite scan_step_full_row. cbn [mbind outcome_bind scan_rows].
    rewrite scan_step_full_row. cbn [mbind outcome_bind scan_rows].
    eexists. split; [done|]. cbn [csv_exercises unmapped_exercises csv_workouts].
    split; [by vm_compute|]. split; [by vm_compute|].
    unfold len, defaultdict_append, scan_init; cbn [csv_workouts].
    rewrite lookup_empty, lookup_insert_ne by done. rewrite lookup_empty.
    rewrite !map_size_insert_None, map_size_empty; [done|..].
    - apply lookup_empty.
    - rewrite lookup_insert_ne by done. apply lookup_empty. }
  assert (len (csv_exercises st) = 2) as Hex2 by (by rewrite Hex).
  assert (len (unmapped_exercises st) = 0) as Hun0 by (by rewrite Hun).
  assert (mapped_count st = 2) as Hmc
    by (unfold mapped_count; by rewrite Hex2, Hun0).
  destruct (report_head (build_name_to_id Sample.bench_press) st)
    as [rest Hrep].
  exists st, rest. do 6 (split; [done|]).
  rewrite main_unfold, Hscan.
  destruct (report (build_name_to_id Sample.bench_press) st) as [o r].
  simpl in Hrep. simpl. rewrite Hrep, Hex2, Hdt, Hmc, Hun0. done.
Qed.

Lemma C1_two_spellings_report_witness :
  ∃ rest,
    stdout (main Sample.bench_press Sample.two_spellings)
    = preamble Sample.bench_press ++
      ["✅ Found 2 unique exercises in CSV";
       "✅ Found 2 unique workout dates in CSV" +:+ nl;
       rule;
       "📊 EXERCISE MAPPING VERIFICATION";
       rule;
       "✅ Mapped exercises: 2/2";
       "❌ Unmapped exercises: 0/2"] ++ rest.
Proof.
  destruct (C1_two_spellings_report "2024-01-01" "2024-01-02"
              "5" "100" "false" "5" "102.5" "false")
    as (st & rest & _ & _ & _ & _ & _ & _ & Hout); [by vm_compute|].
  by exists rest.
Defined.

(** ** Binary64 arithmetic of the percentages *)

Lemma digits2_pos_bounds p :
  2 ^ (Zpos (digits2_pos p) - 1) ≤ Zpos p < 2 ^ Zpos (digits2_pos p).
Proof.
  assert (∀ d : positive, 2 ^ Zpos d = 2 * 2 ^ (Zpos d - 1)) as Hpow.
  { intros d. replace (Zpos d) with (Z.succ (Zpos d - 1)) at 1 by lia.
    apply Z.pow_succ_r. lia. }
  induction p as [p IH|p IH|]; simpl digits2_pos; [| |by vm_compute].
  - rewrite Pos2Z.inj_succ.
    replace (Z.succ (Zpos (digits2_pos p)) - 1) with (Zpos (digits2_pos p))
      by lia.
    rewrite (Z.pow_succ_r 2) by lia. rewrite (Hpow (digits2_pos p)) in *. lia.
  - rewrite Pos2Z.inj_succ.
    replace (Z.succ (Zpos (digits2_pos p)) - 1) with (Zpos (digits2_pos p))
      by lia.
    rewrite (Z.pow_succ_r 2) by lia. rewrite (Hpow (digits2_pos p)) in *. lia.
Qed.

Lemma Zdigits2_nonneg m : 0 ≤ Zdigits2 m.
Proof. by destruct m. Qed.

Lemma Zdigits2_upper m : 0 ≤ m → m < 2 ^ Zdigits2 m.
Proof.
  destruct m as [|p|p]; simpl; [lia| |lia]. intros _.
  apply digits2_pos_bounds.
Qed.

(** A number below [2^k] has at most [k] binary digits. *)
Lemma Zdigits2_le m k : 0 ≤ k → 0 ≤ m < 2 ^ k → Zdigits2 m ≤ k.
Proof.
  intros Hk [Hm Hlt]. destruct m as [|p|p]; simpl; [lia| |lia].
  pose proof (digits2_pos_bounds p) as [Hlo _].
  destruct (decide (Zpos (digits2_pos p) ≤ k)) as [|Hgt]; [done|].
  assert (2 ^ k ≤ 2 ^ (Zpos (digits2_pos p) - 1))
    by (apply Z.pow_le_mono_r; lia).
  lia.
Qed.

Lemma Zdigits2_mono a b : 0 ≤ a ≤ b → Zdigits2 a ≤ Zdigits2 b.
Proof.
  intros [Ha Hab]. apply Zdigits2_le; [apply Zdigits2_nonneg|].
  pose proof (Zdigits2_upper b). lia.
Qed.

Lemma Zdigits2_succ m : 0 ≤ m → Zdigits2 (m + 1) ≤ Zdigits2 m + 1.
Proof.
  intros Hm. pose proof (Zdigits2_nonneg m). pose proof (Zdigits2_upper m Hm).
  apply Zdigits2_le; [lia|]. rewrite Z.pow_add_r by lia.
  change (2 ^ 1) with 2. lia.
Qed.

Lemma Zdigits2_mul a b :
  0 ≤ a → 0 ≤ b → Zdigits2 (a * b) ≤ Zdigits2 a + Zdigits2 b.
Proof.
  intros Ha Hb.
  pose proof (Zdigits2_nonneg a). pose proof (Zdigits2_nonneg b).
  pose proof (Zdigits2_upper a Ha). pose proof (Zdigits2_upper b Hb).
  apply Zdigits2_le; [lia|]. rewrite Z.pow_add_r by done. nia.
Qed.

(** One shift to the right drops a digit. *)
Lemma shr_1_digits mrs :
  0 ≤ shr_m mrs →
  0 ≤ shr_m (shr_1 mrs)
  ∧ Zdigits2 (shr_m (shr_1 mrs)) ≤ Z.max 0 (Zdigits2 (shr_m mrs) - 1).
Proof.
  destruct mrs as [m r s]. simpl.
  destruct m as [|[p|p|]|p]; simpl; try lia.
Qed.

Lemma shr_iter_digits p : ∀ mrs,
  0 ≤ shr_m mrs →
  0 ≤ shr_m (SpecFloat.iter_pos shr_1 p mrs)
  ∧ Zdigits2 (shr_m (SpecFloat.iter_pos shr_1 p mrs))
    ≤ Z.max 0 (Zdigits2 (shr_m mrs) - Zpos p).
Proof.
  induction p as [p IH|p IH|]; intros mrs Hm; simpl SpecFloat.iter_pos.
  - destruct (shr_1_digits mrs Hm) as [H1 D1].
    destruct (IH _ H1) as [H2 D2]. destruct (IH _ H2) as [H3 D3].
    split; [done|]. lia.
  - destruct (IH _ Hm) as [H2 D2]. destruct (IH _ H2) as [H3 D3].
    split; [done|]. lia.
  - by apply shr_1_digits.
Qed.

Lemma shr_fexp_bound m e l :
  0 ≤ m →
  0 ≤ shr_m (shr_fexp Float.prec Float.emax m e l).1
  ∧ (shr_fexp Float.prec Float.emax m e l).2
    = Z.max e (fexp Float.prec Float.emax (Zdigits2 m + e))
  ∧ Zdigits2 (shr_m (shr_fexp Float.prec Float.emax m e l).1)
    + (shr_fexp Float.prec Float.emax m e l).2
    ≤ Z.max (Zdigits2 m + e) (shr_fexp Float.prec Float.emax m e l).2.
Proof.
  intros Hm. unfold shr_fexp, shr.
  assert (shr_m (shr_record_of_loc m l) = m) as Hrec
    by (by destruct l as [|[]]).
  pose proof (Zdigits2_nonneg m) as Hd.
  destruct (fexp Float.prec Float.emax (Zdigits2 m + e) - e)
    as [|p|p] eqn:Hn; cbn [fst snd].
  - rewrite Hrec. lia.
  - destruct (shr_iter_digits p (shr_record_of_loc m l)) as [H1 H2];
      rewrite Hrec in *; [done|]. lia.
  - rewrite Hrec. lia.
Qed.

Lemma round_nearest_even_bounds m l :
  m ≤ round_nearest_even m l ≤ m + 1.
Proof. destruct l as [|[]]; simpl; [lia| |lia..]. destruct (Z.even m); lia. Qed.

(** Rounding a number of moderate size gives zero or a finite float. *)
Lemma binary_round_aux_finite s mx ex lx :
  0 ≤ mx → ex ≤ 971 → Zdigits2 mx + ex ≤ 1023 →
  binary_round_aux Float.prec Float.emax s mx ex lx = S754_zero s
  ∨ ∃ m e,
      binary_round_aux Float.prec Float.emax s mx ex lx = S754_finite s m e
      ∧ e ≤ 971
      ∧ Zpos (digits2_pos m) + e ≤ Z.max (Zdigits2 mx + ex) (-1074) + 1.
Proof.
  intros Hmx Hex Hd. unfold binary_round_aux.
  pose proof (shr_fexp_bound mx ex lx Hmx) as (N1 & E1 & D1).
  destruct (shr_fexp Float.prec Float.emax mx ex lx) as [mrs1 e1].
  cbn [fst snd] in *.
  pose proof (round_nearest_even_bounds (shr_m mrs1) (loc_of_shr_record mrs1))
    as Hrne.
  set (m1 := round_nearest_even (shr_m mrs1) (loc_of_shr_record mrs1)) in *.
  assert (0 ≤ m1) as Hm1 by lia.
  assert (Zdigits2 m1 ≤ Zdigits2 (shr_m mrs1) + 1) as Hdm1.
  { etrans; [apply (Zdigits2_mono m1 (shr_m mrs1 + 1)); lia|].
    by apply Zdigits2_succ. }
  pose proof (shr_fexp_bound m1 e1 loc_Exact Hm1) as (N2 & E2 & D2).
  destruct (shr_fexp Float.prec Float.emax m1 e1 loc_Exact) as [mrs2 e2].
  cbn [fst snd] in *.
  pose proof (Zdigits2_nonneg mx). pose proof (Zdigits2_nonneg m1).
  pose proof (Zdigits2_nonneg (shr_m mrs1)).
  unfold fexp, emin, Float.prec, Float.emax in *.
  destruct (shr_m mrs2) as [|m|m] eqn:Hm2; [by left|right|lia].
  exists m, e2. simpl in D2.
  rewrite (proj2 (Z.leb_le e2 (1024 - 53))) by lia.
  split; [done|]. lia.
Qed.

(** The quotient of two positive integers, the first no larger than the
    second, before rounding: at most one binary digit above the point. *)
Lemma div_core_bounds pa pb :
  Zpos pa ≤ Zpos pb →
  let '(mz, ez, _) :=
    SFdiv_core_binary Float.prec Float.emax (Zpos pa) 0 (Zpos pb) 0 in
  0 ≤ mz ∧ ez ≤ 0 ∧ Zdigits2 mz + ez ≤ 1.
Proof.
  intros Hab. unfold SFdiv_core_binary.
  set (e' := Z.min _ (0 - 0)).
  assert (e' ≤ 0) as He' by (unfold e'; lia).
  set (m' := match 0 - 0 - e' with
             | 0 => Zpos pa
             | Zpos _ => Z.shiftl (Zpos pa) (0 - 0 - e')
             | Zneg _ => 0
             end).
  assert (m' = Zpos pa * 2 ^ (- e')) as Hm'.
  { unfold m'. replace (0 - 0 - e') with (- e') by lia.
    destruct (- e') as [|s|s] eqn:Hs; [simpl; lia| |lia].
    by rewrite Z.shiftl_mul_pow2. }
  pose proof (Z_div_mod m' (Zpos pb) eq_refl) as Hdiv.
  destruct (Z.div_eucl m' (Zpos pb)) as [q r]. destruct Hdiv as [Hq Hr].
  assert (0 < 2 ^ (- e')) as Hpow by (apply Z.pow_pos_nonneg; lia).
  assert (0 ≤ q ≤ 2 ^ (- e')) as Hqb by nia.
  split; [lia|]. split; [done|].
  assert (Zdigits2 q ≤ - e' + 1); [|lia].
  apply Zdigits2_le; [lia|]. rewrite Z.pow_add_r by lia.
  change (2 ^ 1) with 2. lia.
Qed.

(** [a / b] for [0 <= a <= b], [b] not zero: no exception, and a float
    that is zero or a positive finite number. *)
Lemma int_truediv_fraction a b :
  0 ≤ a ≤ b → 0 < b →
  ∃ q, Float.int_truediv a b = Done q
       ∧ (q = S754_zero false
          ∨ ∃ m e, q = S754_finite false m e ∧ e ≤ 971
                   ∧ Zpos (digits2_pos m) + e ≤ 2).
Proof.
  intros [Ha Hab] Hb. unfold Float.int_truediv.
  rewrite (proj2 (Z.eqb_neq b 0)) by lia.
  destruct b as [|pb|pb]; [lia| |lia].
  destruct a as [|pa|pa]; [| |lia].
  - exists (S754_zero false). by split; [|left].
  - cbn [Float.exact SFdiv xorb].
    pose proof (div_core_bounds pa pb Hab) as Hcore.
    destruct (SFdiv_core_binary Float.prec Float.emax (Zpos pa) 0 (Zpos pb) 0)
      as [[mz ez] lz].
    destruct Hcore as (Hmz & Hez & Hdz).
    destruct (binary_round_aux_finite false mz ez lz) as [->|(m & e & -> & ? & ?)];
      [lia..| |].
    + exists (S754_zero false). by split; [|left].
    + exists (S754_finite false m e). split; [done|right].
      exists m, e. split; [done|]. lia.
Qed.

Lemma mul_int_100_finite q :
  (q = S754_zero false
   ∨ ∃ m e, q = S754_finite false m e ∧ e ≤ 971
            ∧ Zpos (digits2_pos m) + e ≤ 2) →
  Float.mul_int q 100 = S754_zero false
  ∨ ∃ m e, Float.mul_int q 100 = S754_finite false m e.
Proof.
  unfold Float.mul_int.
  assert (Float.of_int 100 = S754_finite false 7036874417766400 (-46)) as ->
    by (by vm_compute).
  intros [->|(m & e & -> & He & Hd)]; [by left|].
  cbn [SFmul xorb].
  pose proof (Zdigits2_mul (Zpos m) 7036874417766400) as Hmul.
  change (Zdigits2 7036874417766400) with 53 in Hmul.
  change (Zdigits2 (Zpos m)) with (Zpos (digits2_pos m)) in Hmul.
  destruct (binary_round_aux_finite false
              (Zpos (m * 7036874417766400)) (e + -46) loc_Exact)
    as [->|(m' & e' & -> & _)]; [lia|lia| | |].
  - rewrite Pos2Z.inj_mul. lia.
  - by left.
  - right. by exists m', e'.
Qed.

Lemma round_half_even_spec n d :
  0 < d →
  2 * Z.abs (n - Float.round_half_even n d * d) ≤ d
  ∧ (2 * Z.abs (n - Float.round_half_even n d * d) = d →
     Z.even (Float.round_half_even n d) = true).
Proof.
  intros Hd. unfold Float.round_half_even.
  pose proof (Z_div_mod n d ltac:(lia)) as Hdiv.
  destruct (Z.div_eucl n d) as [q r]. destruct Hdiv as [Hn Hr].
  destruct (2 * r ?= d) eqn:Hc.
  - apply Z.compare_eq_iff in Hc.
    destruct (Z.even q) eqn:Heven.
    + split; [lia|done].
    + split; [lia|]. intros _.
      rewrite Z.add_1_r, Z.even_succ, <- Z.negb_even. by rewrite Heven.
  - change (2 * r < d) in Hc. split; lia.
  - change (2 * r > d) in Hc. split; lia.
Qed.

(** Distance to a count of tenths, for a fraction with a positive
    denominator, in integers. *)
Lemma Qabs_tenths (n : Z) (d : positive) (t : Z) :
  (Qabs (10 * (n # d) - inject_Z t) == Z.abs (10 * n - t * Zpos d) # d)%Q.
Proof.
  assert (10 * (n # d) - inject_Z t == (10 * n - t * Zpos d) # d)%Q as ->.
  { unfold Qeq, Qminus, Qplus, Qmult, Qopp, inject_Z. simpl. lia. }
  done.
Qed.

(** The count of tenths taken by the formatter is the float rounded to one
    decimal place. *)
Lemma tenths_is_round1 m e :
  is_round1 (Float.to_Q (S754_finite false m e)) (Float.tenths m e).
Proof.
  unfold is_round1, Float.to_Q, Float.tenths.
  destruct e as [|p|p].
  - assert (10 * inject_Z (Zpos m * 2 ^ 0) - inject_Z (10 * Zpos m * 2 ^ 0)
            == 0)%Q as ->.
    { unfold Qeq, Qminus, Qplus, Qmult, Qopp, inject_Z. simpl. lia. }
    by split.
  - assert (10 * inject_Z (Zpos m * 2 ^ Zpos p)
            - inject_Z (10 * Zpos m * 2 ^ Zpos p) == 0)%Q as ->.
    { unfold Qeq, Qminus, Qplus, Qmult, Qopp, inject_Z. simpl. lia. }
    by split.
  - rewrite Qabs_tenths.
    pose proof (round_half_even_spec (10 * Zpos m) (2 ^ Zpos p)
                  ltac:(by apply Z.pow_pos_nonneg)) as [Hle Htie].
    rewrite Pos2Z.inj_pow. unfold Qle, Qeq. simpl Qnum. simpl Qden.
    rewrite Pos2Z.inj_pow.
    split; [lia|]. intros Heq. apply Htie. lia.
Qed.

Lemma round_half_even_nonneg n d :
  0 ≤ n → 0 < d → 0 ≤ Float.round_half_even n d.
Proof.
  intros Hn Hd. unfold Float.round_half_even.
  pose proof (Z_div_mod n d ltac:(lia)) as Hdiv.
  destruct (Z.div_eucl n d) as [q r]. destruct Hdiv as [Hq Hr].
  assert (0 ≤ q) by nia.
  destruct (2 * r ?= d); [destruct (Z.even q)|..]; lia.
Qed.

Lemma tenths_nonneg m e : 0 ≤ Float.tenths m e.
Proof.
  unfold Float.tenths. destruct e as [|p|p]; [lia| |].
  - pose proof (Z.pow_pos_nonneg 2 (Zpos p)). lia.
  - apply round_half_even_nonneg; [lia|]. by apply Z.pow_pos_nonneg.
Qed.

(** A percentage of the report: for a count between zero and the number
    of names seen, that number not zero, the expression has a float value,
    and the text shown for it is that value rounded to one decimal. *)
Lemma percent_rounded st count :
  0 ≤ count ≤ len (csv_exercises st) → 0 < len (csv_exercises st) →
  ∃ x t,
    percent_value st count = Done x
    ∧ Float.finite_nonneg x = true
    ∧ is_round1 (Float.to_Q x) t
    ∧ 0 ≤ t
    ∧ percent st count = Done (Float.fixed1 t).
Proof.
  intros Hc Htot. unfold percent, percent_value.
  destruct (int_truediv_fraction count (len (csv_exercises st)) Hc Htot)
    as (q & -> & Hq).
  cbn [mbind outcome_bind mret outcome_ret].
  destruct (mul_int_100_finite q Hq) as [->|(m & e & ->)].
  - exists (S754_zero false), 0. do 2 (split; [done|]). split; [|done].
    by vm_compute.
  - exists (S754_finite false m e), (Float.tenths m e).
    do 2 (split; [done|]). split; [apply tenths_is_round1|].
    split; [apply tenths_nonneg|done].
Qed.

Lemma stdout_eval_bind {A B} (a : A) (k : A → Prog B) :
  stdout (eval (Done a) ≫= k) = stdout (k a).
Proof. simpl. by destruct (k a). Qed.

(** ** One rounding, in exact integers *)

(** The place of the remainder of a division is the place of its fraction
    of the divisor. *)
Lemma new_location_frac b r :
  0 < b → 0 ≤ r < b → new_location b r = loc_of_frac r b.
Proof.
  intros Hb Hr. unfold new_location, new_location_even, new_location_odd,
    loc_of_frac.
  destruct (Z.even b) eqn:Heven; [done|].
  destruct (r =? 0); [done|]. f_equal.
  assert (Z.odd b = true) as Hodd by (by rewrite <- Z.negb_even, Heven).
  apply Z.odd_spec in Hodd as [k ->].
  destruct (Z.compare_spec (2 * r + 1) (2 * k + 1));
    destruct (Z.compare_spec (2 * r) (2 * k + 1)); try done; lia.
Qed.

(** One shift to the right keeps the number written as mantissa plus
    fraction, in units twice as large. *)
Lemma shr_1_frac mrs u V :
  0 ≤ shr_m mrs → 0 ≤ u < V →
  loc_of_shr_record mrs = loc_of_frac u V →
  ∃ u', 0 ≤ u' < 2 * V
        ∧ shr_m (shr_1 mrs) * (2 * V) + u' = shr_m mrs * V + u
        ∧ loc_of_shr_record (shr_1 mrs) = loc_of_frac u' (2 * V).
Proof.
  destruct mrs as [m r s]. cbn [shr_m]. intros Hm Hu Hloc.
  assert (orb r s = negb (u =? 0)) as Hrs.
  { unfold loc_of_frac in Hloc. simpl in Hloc.
    destruct (u =? 0), r, s; simpl in *; congruence. }
  destruct m as [|[p|p|]|p]; [| | | |lia]; cbn [shr_1 shr_m].
  - (* 0 *) exists u. split; [lia|]. split; [lia|].
    unfold loc_of_frac, loc_of_shr_record. rewrite Hrs.
    destruct (Z.eqb_spec u 0) as [->|Hne]; simpl; [done|].
    f_equal. symmetry. apply Z.compare_lt_iff. lia.
  - (* 2p+1 *) exists (V + u). split; [lia|]. split; [lia|].
    unfold loc_of_frac, loc_of_shr_record. rewrite Hrs.
    rewrite (proj2 (Z.eqb_neq (V + u) 0)) by lia.
    destruct (Z.eqb_spec u 0) as [->|Hne]; simpl; f_equal; symmetry.
    + apply Z.compare_eq_iff. lia.
    + apply Z.compare_gt_iff. lia.
  - (* 2p *) exists u. split; [lia|]. split; [lia|].
    unfold loc_of_frac, loc_of_shr_record. rewrite Hrs.
    destruct (Z.eqb_spec u 0) as [->|Hne]; simpl; [done|].
    f_equal. symmetry. apply Z.compare_lt_iff. lia.
  - (* 1 *) exists (V + u). split; [lia|]. split; [lia|].
    unfold loc_of_frac, loc_of_shr_record. rewrite Hrs.
    rewrite (proj2 (Z.eqb_neq (V + u) 0)) by lia.
    destruct (Z.eqb_spec u 0) as [->|Hne]; simpl; f_equal; symmetry.
    + apply Z.compare_eq_iff. lia.
    + apply Z.compare_gt_iff. lia.
Qed.

Lemma shr_iter_frac p : ∀ mrs u V,
  0 ≤ shr_m mrs → 0 ≤ u < V →
  loc_of_shr_record mrs = loc_of_frac u V →
  ∃ u', 0 ≤ u' < 2 ^ Zpos p * V
        ∧ shr_m (SpecFloat.iter_pos shr_1 p mrs) * (2 ^ Zpos p * V) + u'
          = shr_m mrs * V + u
        ∧ loc_of_shr_record (SpecFloat.iter_pos shr_1 p mrs)
          = loc_of_frac u' (2 ^ Zpos p * V).
Proof.
  induction p as [p IH|p IH|]; intros mrs u V Hm Hu Hloc;
    simpl SpecFloat.iter_pos.
  - replace (2 ^ Zpos p~1 * V) with (2 ^ Zpos p * (2 ^ Zpos p * (2 * V)))
      by (replace (Zpos p~1) with (Zpos p + Zpos p + 1) by lia;
          rewrite !Z.pow_add_r by lia; change (2 ^ 1) with 2; lia).
    destruct (shr_1_frac mrs u V Hm Hu Hloc) as (u1 & Hu1 & <- & Hloc1).
    pose proof (proj1 (shr_1_digits mrs Hm)) as N1.
    destruct (IH _ u1 (2 * V) N1 Hu1 Hloc1) as (u2 & Hu2 & <- & Hloc2).
    pose proof (proj1 (shr_iter_digits p _ N1)) as N2.
    by apply IH.
  - replace (2 ^ Zpos p~0 * V) with (2 ^ Zpos p * (2 ^ Zpos p * V))
      by (replace (Zpos p~0) with (Zpos p + Zpos p) by lia;
          rewrite !Z.pow_add_r by lia; lia).
    destruct (IH _ u V Hm Hu Hloc) as (u2 & Hu2 & <- & Hloc2).
    pose proof (proj1 (shr_iter_digits p _ Hm)) as N2.
    by apply IH.
  - change (2 ^ 1) with 2. by apply shr_1_frac.
Qed.

Lemma loc_of_shr_record_of_loc m l :
  loc_of_shr_record (shr_record_of_loc m l) = l
  ∧ shr_m (shr_record_of_loc m l) = m.
Proof. by destruct l as [|[]]. Qed.

(** The first shift of the rounding: the mantissa is cut at the exponent
    of the format, and what is cut off is kept as a fraction of the new
    unit. *)
Lemma shr_fexp_frac mx e0 lx u V :
  0 ≤ mx → 0 ≤ u < V → lx = loc_of_frac u V →
  e0 ≤ fexp Float.prec Float.emax (Zdigits2 mx + e0) →
  ∃ p u1,
    0 ≤ p
    ∧ (shr_fexp Float.prec Float.emax mx e0 lx).2 = e0 + p
    ∧ e0 + p = fexp Float.prec Float.emax (Zdigits2 mx + e0)
    ∧ 0 ≤ u1 < 2 ^ p * V
    ∧ 0 ≤ shr_m (shr_fexp Float.prec Float.emax mx e0 lx).1
    ∧ shr_m (shr_fexp Float.prec Float.emax mx e0 lx).1 * (2 ^ p * V) + u1
      = mx * V + u
    ∧ loc_of_shr_record (shr_fexp Float.prec Float.emax mx e0 lx).1
      = loc_of_frac u1 (2 ^ p * V).
Proof.
  intros Hmx Hu -> He0. unfold shr_fexp, shr.
  destruct (loc_of_shr_record_of_loc mx (loc_of_frac u V)) as [Hloc Hm].
  destruct (fexp Float.prec Float.emax (Zdigits2 mx + e0) - e0)
    as [|p|p] eqn:Hn; cbn [fst snd]; [| |lia].
  - exists 0, u. change (2 ^ 0) with 1. rewrite Hm, Hloc.
    repeat split; try lia. f_equal; lia.
  - destruct (shr_iter_frac p (shr_record_of_loc mx (loc_of_frac u V)) u V)
      as (u1 & Hu1 & Heq & Hloc1); [rewrite Hm; lia|done|done|].
    exists (Zpos p), u1. rewrite Hm in Heq.
    pose proof (proj1 (shr_iter_digits p
      (shr_record_of_loc mx (loc_of_frac u V)) ltac:(rewrite Hm; lia))).
    repeat split; try lia. done.
Qed.

(** Rounding to nearest, ties to even, of a mantissa with a fraction. *)
Lemma round_nearest_even_frac m u V :
  0 ≤ u < V →
  let n := round_nearest_even m (loc_of_frac u V) in
  m ≤ n ≤ m + 1
  ∧ 2 * Z.abs (m * V + u - n * V) ≤ V
  ∧ (2 * Z.abs (m * V + u - n * V) = V → Z.even n = true).
Proof.
  intros Hu. unfold loc_of_frac.
  destruct (Z.eqb_spec u 0) as [->|Hne]; cbn [round_nearest_even].
  - repeat split; lia.
  - destruct (Z.compare_spec (2 * u) V) as [Heq|Hlt|Hgt];
      cbn [round_nearest_even].
    + destruct (Z.even m) eqn:Heven.
      * repeat split; try lia. done.
      * repeat split; try lia. intros _.
        rewrite Z.add_1_r, Z.even_succ, <- Z.negb_even. by rewrite Heven.
    + repeat split; try lia.
    + repeat split; try lia.
Qed.

Lemma Zdigits2_lower m : 0 < m → 2 ^ (Zdigits2 m - 1) ≤ m.
Proof.
  destruct m as [|p|p]; [lia| |lia]. intros _. apply digits2_pos_bounds.
Qed.

Lemma pow2_split a b : 0 ≤ a → 0 ≤ b → 2 ^ (a + b) = 2 ^ a * 2 ^ b.
Proof. intros. by apply Z.pow_add_r. Qed.

(** The rounding step shared by the division and the multiplication is
    correct: of a number [(mx + u/V) * 2^e0] it keeps the multiple [n] of
    the unit in the last place nearest to it, the even one at a tie. *)
Lemma binary_round_aux_correct s mx e0 lx u V :
  0 ≤ mx → 0 ≤ u < V → lx = loc_of_frac u V →
  e0 ≤ fexp Float.prec Float.emax (Zdigits2 mx + e0) →
  Zdigits2 mx + e0 ≤ 1023 →
  ∃ p n,
    0 ≤ p ∧ 0 ≤ n ∧ -1074 ≤ e0 + p
    ∧ mx * V + u < 2 ^ 53 * (2 ^ p * V)
    ∧ (e0 + p = -1074 ∨ 2 ^ 52 * (2 ^ p * V) ≤ mx * V + u)
    ∧ 2 * Z.abs (mx * V + u - n * (2 ^ p * V)) ≤ 2 ^ p * V
    ∧ (2 * Z.abs (mx * V + u - n * (2 ^ p * V)) = 2 ^ p * V →
       Z.even n = true)
    ∧ (n = 0
       ∧ binary_round_aux Float.prec Float.emax s mx e0 lx = S754_zero s
       ∨ ∃ m e,
           binary_round_aux Float.prec Float.emax s mx e0 lx
           = S754_finite s m e
           ∧ e0 + p ≤ e ∧ Zpos m * 2 ^ (e - (e0 + p)) = n).
Proof.
  intros Hmx Hu Hlx He0 Hd. unfold binary_round_aux.
  destruct (shr_fexp_frac mx e0 lx u V Hmx Hu Hlx He0)
    as (p & u1 & Hp & He1 & Hfexp & Hu1 & Hm1 & HX & Hloc).
  destruct (shr_fexp Float.prec Float.emax mx e0 lx) as [mrs1 e1].
  cbn [fst snd] in *. subst e1.
  set (V1 := 2 ^ p * V) in *. set (X := mx * V + u) in *.
  pose proof (Zdigits2_nonneg mx) as Hdmx.
  assert (0 < 2 ^ p) as Hpow by (by apply Z.pow_pos_nonneg).
  assert (0 < V1) as HV1 by (unfold V1; nia).
  assert (-1074 ≤ e0 + p) as Hlo
    by (rewrite Hfexp; unfold fexp, emin, Float.prec, Float.emax; lia).
  assert (X < 2 ^ 53 * V1) as Hupper.
  { pose proof (Zdigits2_upper mx Hmx) as Hlt.
    assert (2 ^ Zdigits2 mx ≤ 2 ^ (53 + p)) as Hle.
    { apply Z.pow_le_mono_r; [lia|].
      unfold fexp, emin, Float.prec, Float.emax in Hfexp. lia. }
    rewrite pow2_split in Hle by lia. unfold X, V1. nia. }
  assert (e0 + p = -1074 ∨ 2 ^ 52 * V1 ≤ X) as Hlower.
  { destruct (decide (e0 + p = -1074)) as [|Hne]; [by left|right].
    assert (p = Zdigits2 mx - 53) as Hpd
      by (unfold fexp, emin, Float.prec, Float.emax in Hfexp; lia).
    assert (0 < mx) as Hpos.
    { destruct (decide (mx = 0)) as [->|]; [|lia]. simpl in Hpd. lia. }
    pose proof (Zdigits2_lower mx Hpos) as Hge.
    replace (Zdigits2 mx - 1) with (52 + p) in Hge by lia.
    rewrite pow2_split in Hge by lia. unfold X, V1. nia. }
  rewrite Hloc.
  pose proof (round_nearest_even_frac (shr_m mrs1) u1 V1 Hu1)
    as (Hn & Hnear & Htie).
  set (n := round_nearest_even (shr_m mrs1) (loc_of_frac u1 V1)) in *.
  rewrite HX in Hnear, Htie.
  assert (shr_m mrs1 < 2 ^ 53) as Hm53 by nia.
  exists p, n. do 7 (split; [done || lia|]).
  unfold shr_fexp, shr. cbn [shr_record_of_loc].
  destruct (decide (n = 2 ^ 53)) as [Hn53|Hn53].
  - rewrite Hn53. change (Zdigits2 (2 ^ 53)) with 54.
    replace (fexp Float.prec Float.emax (54 + (e0 + p)) - (e0 + p)) with 1
      by (unfold fexp, emin, Float.prec, Float.emax; lia).
    cbn [SpecFloat.iter_pos]. change (2 ^ 53) with 9007199254740992.
    cbn [shr_1 shr_m].
    rewrite (proj2 (Z.leb_le (e0 + p + 1) (Float.emax - Float.prec))).
    + right. eexists _, _. split; [done|]. split; [lia|].
      replace (e0 + p + 1 - (e0 + p)) with 1 by lia. done.
    + unfold fexp, emin, Float.prec, Float.emax in *. lia.
  - assert (Zdigits2 n ≤ 53) as Hdn
      by (apply Zdigits2_le; [lia|]; change (2 ^ 53) with 9007199254740992 in *; lia).
    pose proof (Zdigits2_nonneg n).
    destruct (fexp Float.prec Float.emax (Zdigits2 n + (e0 + p)) - (e0 + p))
      as [|k|k] eqn:Hk;
      [|unfold fexp, emin, Float.prec, Float.emax in Hk; lia|]; cbn [shr_m].
    + destruct n as [|m|m] eqn:Hnm; [by left| |lia].
      rewrite (proj2 (Z.leb_le (e0 + p) (Float.emax - Float.prec))).
      * right. exists m, (e0 + p). split; [done|]. split; [lia|].
        rewrite Z.sub_diag. change (2 ^ 0) with 1. lia.
      * unfold fexp, emin, Float.prec, Float.emax in *. lia.
    + destruct n as [|m|m] eqn:Hnm; [by left| |lia].
      rewrite (proj2 (Z.leb_le (e0 + p) (Float.emax - Float.prec))).
      * right. exists m, (e0 + p). split; [done|]. split; [lia|].
        rewrite Z.sub_diag. change (2 ^ 0) with 1. lia.
      * unfold fexp, emin, Float.prec, Float.emax in *. lia.
Qed.

(** ** Binary64 rounding against its definition over the rationals *)

Lemma Qpow2_pos e : (0 < 2 ^ e)%Q.
Proof. by apply Qpower_0_lt. Qed.

Lemma Qpow2_inject k : 0 ≤ k → (inject_Z (2 ^ k) == 2 ^ k)%Q.
Proof. intros Hk. by rewrite Zpower_Qpower. Qed.

Lemma Qpow2_add a b : (2 ^ (a + b) == 2 ^ a * 2 ^ b)%Q.
Proof. by apply Qpower_plus. Qed.

(** The value of a float as mantissa times a power of two. *)
Lemma to_Q_pow m e :
  (Float.to_Q (S754_finite false m e) == inject_Z (Zpos m) * 2 ^ e)%Q.
Proof.
  unfold Float.to_Q. destruct e as [|p|p].
  - change (2 ^ 0)%Q with 1%Q. rewrite Z.pow_0_r, Z.mul_1_r. ring.
  - rewrite inject_Z_mult, Qpow2_inject; [reflexivity|lia].
  - rewrite Qmake_Qdiv, Pos2Z.inj_pow, Qpow2_inject by lia.
    change (Zneg p) with (- Zpos p). rewrite Qpower_opp. reflexivity.
Qed.

Lemma to_Q_scaled m e e1 n :
  e1 ≤ e → Zpos m * 2 ^ (e - e1) = n →
  (Float.to_Q (S754_finite false m e) == inject_Z n * 2 ^ e1)%Q.
Proof.
  intros He <-. rewrite to_Q_pow, inject_Z_mult, Qpow2_inject by lia.
  rewrite <- Qmult_assoc, <- Qpow2_add.
  by replace (e - e1 + e1) with e by lia.
Qed.

Lemma Qhalf (T : Q) : (T / 2 == T * (1 # 2))%Q.
Proof. field. Qed.

Lemma ulp_exponent_compat r r' e :
  (r == r')%Q → ulp_exponent r e → ulp_exponent r' e.
Proof.
  intros Hr (H0 & He & Hlt & Hge). unfold ulp_exponent. rewrite <- Hr.
  do 3 (split; [done|]). destruct Hge as [->|Hge]; [by left|by right].
Qed.

Lemma rounded_binary64_compat r r' x x' :
  (r == r')%Q → (x == x')%Q → rounded_binary64 r x → rounded_binary64 r' x'.
Proof.
  intros Hr Hx (e & n & He & Hv & Hnear & Htie). exists e, n.
  split; [by apply (ulp_exponent_compat r)|].
  rewrite <- Hr, <- Hx. done.
Qed.

Lemma rounded_binary64_zero : rounded_binary64 0 0.
Proof.
  exists (-1074), 0. split; [|split; [|split]].
  - split; [done|]. split; [lia|]. split; [apply Qpow2_pos|by left].
  - ring.
  - change (Qabs (0 - 0)) with 0%Q. pose proof (Qpow2_pos (-1074)) as HT.
    rewrite Qhalf. revert HT. generalize (2 ^ (-1074))%Q. intros T HT. lra.
  - done.
Qed.

(** Distance between a fraction and an integer, in integers. *)
Lemma Qabs_frac (X n : Z) (v : positive) :
  (Qabs ((X # v) - inject_Z n) == Z.abs (X - n * Zpos v) # v)%Q.
Proof.
  assert ((X # v) - inject_Z n == (X - n * Zpos v) # v)%Q as ->.
  { unfold Qeq, Qminus, Qplus, Qmult, Qopp, inject_Z. simpl. lia. }
  done.
Qed.

(** From the integers of the computation to the definition of the
    rounding: [X/V * 2^e] rounds to [n * 2^e]. *)
Lemma rounded_of_frac (X V n e : Z) :
  0 ≤ X → 0 < V → -1074 ≤ e →
  X < 2 ^ 53 * V →
  e = -1074 ∨ 2 ^ 52 * V ≤ X →
  2 * Z.abs (X - n * V) ≤ V →
  (2 * Z.abs (X - n * V) = V → Z.even n = true) →
  rounded_binary64 (inject_Z X / inject_Z V * 2 ^ e) (inject_Z n * 2 ^ e).
Proof.
  intros HX HV He Hupper Hlower Hnear Htie.
  destruct V as [|v|v]; [lia| |lia].
  apply (rounded_binary64_compat ((X # v) * 2 ^ e) _ (inject_Z n * 2 ^ e));
    [by rewrite Qmake_Qdiv|reflexivity|].
  pose proof (Qpow2_pos e) as HT.
  assert (((X # v) * 2 ^ e - inject_Z n * 2 ^ e
           == ((X # v) - inject_Z n) * 2 ^ e)%Q) as Hdiff by ring.
  assert ((Qabs ((X # v) * 2 ^ e - inject_Z n * 2 ^ e)
           == (Z.abs (X - n * Zpos v) # v) * 2 ^ e)%Q) as Habs.
  { rewrite Hdiff, Qabs_Qmult, Qabs_frac.
    rewrite (Qabs_pos (2 ^ e)); [reflexivity|lra]. }
  exists e, n. split; [|split; [reflexivity|split]].
  - split; [|split; [done|split]].
    + apply Qmult_le_0_compat; [|lra]. unfold Qle. simpl Qnum. simpl Qden. lia.
    + rewrite Qpow2_add, (Qmult_comm (2 ^ e)). apply Qmult_lt_compat_r; [done|].
      rewrite <- Qpow2_inject by lia. unfold Qlt, inject_Z. simpl Qnum.
      simpl Qden. lia.
    + destruct Hlower as [->|Hlower]; [by left|right].
      rewrite Qpow2_add, (Qmult_comm (2 ^ e)).
      apply Qmult_le_compat_r; [|lra].
      rewrite <- Qpow2_inject by lia. unfold Qle, inject_Z. simpl Qnum.
      simpl Qden. lia.
  - rewrite Habs, Qhalf.
    assert ((Z.abs (X - n * Zpos v) # v) <= 1 # 2)%Q as Hhalf
      by (unfold Qle; simpl Qnum; simpl Qden; lia).
    revert HT Hhalf. generalize (2 ^ e)%Q (Z.abs (X - n * Zpos v) # v).
    intros T A HT Hhalf. nra.
  - rewrite Habs, Qhalf. intros Heq. apply Htie.
    assert ((Z.abs (X - n * Zpos v) # v) == 1 # 2)%Q as Hhalf.
    { apply (Qmult_inj_r _ _ (2 ^ e)); [lra|]. rewrite Heq. ring. }
    unfold Qeq in Hhalf. simpl Qnum in Hhalf. simpl Qden in Hhalf. lia.
Qed.

Lemma Zdigits2_ge m k : 0 ≤ k → 2 ^ k ≤ m → k + 1 ≤ Zdigits2 m.
Proof.
  intros Hk Hm. assert (0 < 2 ^ k) by (by apply Z.pow_pos_nonneg).
  pose proof (Zdigits2_upper m ltac:(lia)) as Hlt.
  pose proof (Zdigits2_nonneg m).
  assert (k < Zdigits2 m); [|lia].
  apply (Z.pow_lt_mono_r_iff 2); lia.
Qed.

(** The quotient of two positive integers, the first no larger than the
    second, before rounding: the integer quotient of the scaled numerator,
    with enough digits for one rounding, and the place of the remainder. *)
Lemma div_core_frac pa pb :
  Zpos pa ≤ Zpos pb →
  let '(mz, ez, lz) :=
    SFdiv_core_binary Float.prec Float.emax (Zpos pa) 0 (Zpos pb) 0 in
  ∃ u, 0 ≤ mz ∧ 0 ≤ u < Zpos pb ∧ lz = loc_of_frac u (Zpos pb)
       ∧ ez ≤ 0
       ∧ mz * Zpos pb + u = Zpos pa * 2 ^ (- ez)
       ∧ ez ≤ fexp Float.prec Float.emax (Zdigits2 mz + ez).
Proof.
  intros Hab. unfold SFdiv_core_binary.
  pose proof (digits2_pos_bounds pa) as [Halo Hahi].
  pose proof (digits2_pos_bounds pb) as [Hblo Hbhi].
  change (Zdigits2 (Zpos pa)) with (Zpos (digits2_pos pa)).
  change (Zdigits2 (Zpos pb)) with (Zpos (digits2_pos pb)).
  set (d1 := Zpos (digits2_pos pa)) in *.
  set (d2 := Zpos (digits2_pos pb)) in *.
  assert (d1 ≤ d2) as Hd.
  { destruct (decide (d1 ≤ d2)) as [|Hgt]; [done|].
    assert (2 ^ d2 ≤ 2 ^ (d1 - 1)) by (apply Z.pow_le_mono_r; lia). lia. }
  set (e' := Z.min _ (0 - 0)).
  assert (e' = Z.max (d1 - d2 - 53) (-1074)) as He'
    by (unfold e', fexp, emin, Float.prec, Float.emax; lia).
  clearbody e'.
  set (m' := match 0 - 0 - e' with
             | 0 => Zpos pa
             | Zpos _ => Z.shiftl (Zpos pa) (0 - 0 - e')
             | Zneg _ => 0
             end).
  assert (m' = Zpos pa * 2 ^ (- e')) as Hm'.
  { unfold m'. replace (0 - 0 - e') with (- e') by lia.
    destruct (- e') as [|s|s] eqn:Hs; [simpl; lia| |lia].
    by rewrite Z.shiftl_mul_pow2. }
  clearbody m'.
  pose proof (Z_div_mod m' (Zpos pb) eq_refl) as Hdiv.
  destruct (Z.div_eucl m' (Zpos pb)) as [q r]. destruct Hdiv as [Hq Hr].
  assert (0 < 2 ^ (- e')) as Hpow by (apply Z.pow_pos_nonneg; lia).
  assert (0 ≤ q) as Hq0 by nia.
  exists r. split; [done|]. split; [lia|].
  split; [apply new_location_frac; lia|]. split; [lia|].
  split; [lia|].
  destruct (decide (e' = -1074)) as [->|Hne].
  { unfold fexp, emin, Float.prec, Float.emax. lia. }
  assert (- e' = 53 + d2 - d1) as Hs by lia.
  assert (2 ^ 52 ≤ q) as Hq52.
  { assert (2 ^ (d1 - 1) * 2 ^ (- e') = 2 ^ 52 * 2 ^ d2) as Hsplit.
    { rewrite <- !pow2_split by lia. f_equal. lia. }
    assert (2 ^ 52 * Zpos pb < (q + 1) * Zpos pb) by nia.
    assert (2 ^ 52 < q + 1); [|lia].
    apply (Z.mul_lt_mono_pos_r (Zpos pb)); lia. }
  pose proof (Zdigits2_ge q 52 ltac:(lia) Hq52).
  unfold fexp, emin, Float.prec, Float.emax. lia.
Qed.

(** [a / b] for ints [0 <= a <= b], [b] not zero, is the quotient of the
    two numbers rounded once to binary64. *)
Lemma int_truediv_rounded a b :
  0 ≤ a ≤ b → 0 < b →
  ∃ q, Float.int_truediv a b = Done q
       ∧ rounded_binary64 (inject_Z a / inject_Z b) (Float.to_Q q).
Proof.
  intros [Ha Hab] Hb. unfold Float.int_truediv.
  rewrite (proj2 (Z.eqb_neq b 0)) by lia.
  destruct b as [|pb|pb]; [lia| |lia].
  destruct a as [|pa|pa]; [| |lia].
  - exists (S754_zero false). split; [done|].
    apply (rounded_binary64_compat 0 _ 0); [|done|apply rounded_binary64_zero].
    unfold Qdiv. ring.
  - cbn [Float.exact SFdiv xorb].
    pose proof (div_core_frac pa pb Hab) as Hcore.
    pose proof (div_core_bounds pa pb Hab) as Hbounds.
    destruct (SFdiv_core_binary Float.prec Float.emax (Zpos pa) 0 (Zpos pb) 0)
      as [[mz ez] lz].
    destruct Hcore as (u & Hmz & Hu & Hlz & Hez & HX & Hfexp).
    destruct Hbounds as (_ & _ & Hdz).
    destruct (binary_round_aux_correct false mz ez lz u (Zpos pb))
      as (p & n & Hp & Hn & He1 & Hupper & Hlower & Hnear & Htie & Hres);
      [done|done|done|done|lia|].
    pose proof (rounded_of_frac (mz * Zpos pb + u) (2 ^ p * Zpos pb) n (ez + p))
      as Hround.
    assert (0 < 2 ^ p) as Hpow by (by apply Z.pow_pos_nonneg).
    specialize (Hround ltac:(lia) ltac:(nia) He1 Hupper Hlower Hnear Htie).
    assert ((inject_Z (mz * Zpos pb + u) / inject_Z (2 ^ p * Zpos pb)
             * 2 ^ (ez + p) == inject_Z (Zpos pa) / inject_Z (Zpos pb))%Q)
      as Hval.
    { rewrite HX, !inject_Z_mult, !Qpow2_inject, Qpow2_add, Qpower_opp by lia.
      pose proof (Qpow2_pos ez) as H1. pose proof (Qpow2_pos p) as H2.
      revert H1 H2. generalize (2 ^ ez)%Q (2 ^ p)%Q. intros T1 T2 H1 H2.
      field. repeat split; [|lra|lra]. by intros ?%Qeq_bool_neq. }
    destruct Hres as [[-> ->]|(m & e & -> & He & Hm)].
    + exists (S754_zero false). split; [done|].
      eapply rounded_binary64_compat; [exact Hval| |exact Hround].
      unfold Float.to_Q. ring.
    + exists (S754_finite false m e). split; [done|].
      eapply rounded_binary64_compat; [exact Hval| |exact Hround].
      symmetry. by apply to_Q_scaled.
Qed.

(** [q * 100] for a float [q] between zero and one is the product rounded
    once to binary64. *)
Lemma mul_int_100_rounded q :
  (q = S754_zero false
   ∨ ∃ m e, q = S754_finite false m e ∧ e ≤ 971
            ∧ Zpos (digits2_pos m) + e ≤ 2) →
  rounded_binary64 (Float.to_Q q * 100) (Float.to_Q (Float.mul_int q 100)).
Proof.
  unfold Float.mul_int.
  assert (Float.of_int 100 = S754_finite false 7036874417766400 (-46)) as ->
    by (by vm_compute).
  intros [->|(m & e & -> & He & Hd)].
  { apply (rounded_binary64_compat 0 _ 0); [|done|apply rounded_binary64_zero].
    unfold Float.to_Q. ring. }
  cbn [SFmul xorb]. rewrite Pos2Z.inj_mul.
  set (mx := Zpos m * 7036874417766400).
  assert (2 ^ 52 ≤ mx) as Hmx
    by (unfold mx; change (2 ^ 52) with 4503599627370496; lia).
  pose proof (Zdigits2_ge mx 52 ltac:(lia) Hmx) as Hdlo.
  pose proof (Zdigits2_mul (Zpos m) 7036874417766400 ltac:(lia) ltac:(lia))
    as Hdhi.
  change (Zdigits2 7036874417766400) with 53 in Hdhi.
  change (Zdigits2 (Zpos m)) with (Zpos (digits2_pos m)) in Hdhi.
  fold mx in Hdhi.
  destruct (binary_round_aux_correct false mx (e + -46) loc_Exact 0 1)
    as (p & n & Hp & Hn & He1 & Hupper & Hlower & Hnear & Htie & Hres);
    [lia|lia|done| |lia|].
  { unfold fexp, emin, Float.prec, Float.emax. lia. }
  assert (0 < 2 ^ p) as Hpow by (by apply Z.pow_pos_nonneg).
  pose proof (rounded_of_frac (mx * 1 + 0) (2 ^ p * 1) n (e + -46 + p)
                ltac:(lia) ltac:(lia) He1 Hupper Hlower Hnear Htie) as Hround.
  assert ((inject_Z (mx * 1 + 0) / inject_Z (2 ^ p * 1) * 2 ^ (e + -46 + p)
           == Float.to_Q (S754_finite false m e) * 100)%Q) as Hval.
  { rewrite to_Q_pow. unfold mx.
    rewrite Z.mul_1_r, Z.add_0_r, Z.mul_1_r, inject_Z_mult, Qpow2_inject by lia.
    rewrite !Qpow2_add.
    assert ((inject_Z 7036874417766400 * 2 ^ (-46) == 100)%Q) as H100
      by (by vm_compute).
    pose proof (Qpow2_pos e) as H1. pose proof (Qpow2_pos p) as H2.
    revert H100 H1 H2. generalize (2 ^ e)%Q (2 ^ p)%Q (2 ^ (-46))%Q.
    intros T1 T2 T3 H100 H1 H2.
    transitivity
      (inject_Z (Zpos m) * T1 * (inject_Z 7036874417766400 * T3))%Q;
      [|by rewrite H100].
    field. lra. }
  destruct Hres as [[-> ->]|(m' & e' & -> & He' & Hm')].
  - eapply rounded_binary64_compat; [exact Hval| |exact Hround].
    unfold Float.to_Q. ring.
  - eapply rounded_binary64_compat; [exact Hval| |exact Hround].
    symmetry. by apply to_Q_scaled.
Qed.

(** The rounding is a function of the number rounded. *)
Lemma ulp_exponent_unique r e e' :
  ulp_exponent r e → ulp_exponent r e' → e = e'.
Proof.
  assert (∀ a b, ulp_exponent r a → ulp_exponent r b → ¬ a < b) as Hlt.
  { intros a b (_ & Ha & Hupper & _) (_ & Hb & _ & Hlower) Hab.
    destruct Hlower as [->|Hlower]; [lia|].
    assert (2 ^ (a + 53) <= 2 ^ (b + 52))%Q as Hle
      by (apply Qpower_le_compat_l; [lia|done]).
    apply (Qlt_irrefl r). eapply Qlt_le_trans; [exact Hupper|].
    by eapply Qle_trans. }
  intros H1 H2. pose proof (Hlt _ _ H1 H2). pose proof (Hlt _ _ H2 H1). lia.
Qed.

Lemma Qabs_bounds (d h : Q) : (Qabs d <= h)%Q → (- h <= d ∧ d <= h)%Q.
Proof. intros H. by apply Qabs_Qle_condition. Qed.

Lemma Qabs_tie (d h : Q) : (d == h ∨ d == - h)%Q → (0 <= h)%Q → (Qabs d == h)%Q.
Proof.
  intros [->| ->] Hh.
  - by apply Qabs_pos.
  - rewrite Qabs_opp. by apply Qabs_pos.
Qed.

(** Two integers within half a unit of the same number, each even when it
    is exactly half a unit away, are the same integer. *)
Lemma nearest_even_unique (y h : Q) (n n' : Z) :
  (h == 1 # 2)%Q →
  (Qabs (y - inject_Z n) <= h)%Q → (Qabs (y - inject_Z n') <= h)%Q →
  ((Qabs (y - inject_Z n) == h)%Q → Z.even n = true) →
  ((Qabs (y - inject_Z n') == h)%Q → Z.even n' = true) →
  n = n'.
Proof.
  intros Hh [Hn1 Hn2]%Qabs_bounds [Hn'1 Hn'2]%Qabs_bounds Htie Htie'.
  assert (inject_Z (n + - n') <= inject_Z 1)%Q as H1
    by (rewrite inject_Z_plus, inject_Z_opp; change (inject_Z 1) with 1%Q; lra).
  assert (inject_Z (n' + - n) <= inject_Z 1)%Q as H2
    by (rewrite inject_Z_plus, inject_Z_opp; change (inject_Z 1) with 1%Q; lra).
  rewrite <- Zle_Qle in H1, H2.
  destruct (decide (n = n')) as [|Hne]; [done|exfalso].
  assert (n' = n + 1 ∨ n = n' + 1) as [->| ->] by lia.
  - rewrite inject_Z_plus in *. change (inject_Z 1) with 1%Q in *.
    assert (Z.even n = true) as He
      by (apply Htie, Qabs_tie; [left|]; lra).
    assert (Z.even (n + 1) = true) as He'
      by (apply Htie', Qabs_tie; [right|]; lra).
    rewrite Z.add_1_r, Z.even_succ, <- Z.negb_even, He in He'. done.
  - rewrite inject_Z_plus in *. change (inject_Z 1) with 1%Q in *.
    assert (Z.even n' = true) as He
      by (apply Htie', Qabs_tie; [left|]; lra).
    assert (Z.even (n' + 1) = true) as He'
      by (apply Htie, Qabs_tie; [right|]; lra).
    rewrite Z.add_1_r, Z.even_succ, <- Z.negb_even, He in He'. done.
Qed.

Lemma rounded_binary64_unique r x x' :
  rounded_binary64 r x → rounded_binary64 r x' → (x == x')%Q.
Proof.
  intros (e & n & He & Hx & Hnear & Htie) (e' & n' & He' & Hx' & Hnear' & Htie').
  pose proof (ulp_exponent_unique r e e' He He') as <-.
  pose proof (Qpow2_pos e) as HT.
  rewrite Hx, Hx'. rewrite Hx in Hnear, Htie. rewrite Hx' in Hnear', Htie'.
  rewrite Qhalf in Hnear, Htie, Hnear', Htie'.
  assert (∀ k, (Qabs (r - inject_Z k * 2 ^ e)
                == Qabs (r / 2 ^ e - inject_Z k) * 2 ^ e)%Q) as Hscale.
  { intros k. rewrite <- (Qabs_pos (2 ^ e)) at 3 by lra.
    rewrite <- Qabs_Qmult. apply Qabs_wd. field. lra. }
  rewrite Hscale in Hnear, Htie, Hnear', Htie'.
  assert (n = n') as <-; [|reflexivity].
  apply (nearest_even_unique (r / 2 ^ e) (1 # 2)); [reflexivity|..].
  - apply (Qmult_le_r _ _ (2 ^ e)); [done|]. by rewrite (Qmult_comm (1 # 2)).
  - apply (Qmult_le_r _ _ (2 ^ e)); [done|]. by rewrite (Qmult_comm (1 # 2)).
  - intros Heq. apply Htie. rewrite Heq. ring.
  - intros Heq. apply Htie'. rewrite Heq. ring.
Qed.

Lemma is_round1_compat x x' t : (x == x')%Q → is_round1 x t → is_round1 x' t.
Proof. intros Hx [Hnear Htie]. split; by rewrite <- Hx. Qed.

Lemma is_round1_unique x t t' : is_round1 x t → is_round1 x t' → t = t'.
Proof.
  intros [Hnear Htie] [Hnear' Htie'].
  by apply (nearest_even_unique (10 * x) (1 # 2)).
Qed.


Lemma percent_tenths_unique count total t t' :
  percent_tenths count total t → percent_tenths count total t' → t = t'.
Proof.
  intros (_ & q & x & Hq & Hx & Ht) (_ & q' & x' & Hq' & Hx' & Ht').
  pose proof (rounded_binary64_unique _ _ _ Hq Hq') as Hqq.
  assert (x == x')%Q as Hxx.
  { apply (rounded_binary64_unique (q * 100)); [done|].
    apply (rounded_binary64_compat (q' * 100) _ x'); [|reflexivity|done].
    by rewrite Hqq. }
  apply (is_round1_unique x); [done|].
  apply (is_round1_compat x'); [by symmetry|done].
Qed.

(** The formatter writes a count of tenths as its integer part, a point
    and its last digit. *)
Lemma fixed1_str t :
  Float.fixed1 t = str (t / 10) +:+ "." +:+ str (t mod 10).
Proof.
  unfold Float.fixed1, str. do 2 f_equal.
  pose proof (Z.mod_pos_bound t 10 ltac:(lia)) as Hd.
  generalize dependent (t mod 10). intros d Hd.
  assert (d = 0 ∨ d = 1 ∨ d = 2 ∨ d = 3 ∨ d = 4 ∨ d = 5 ∨ d = 6 ∨ d = 7
          ∨ d = 8 ∨ d = 9) as Hcases by lia.
  repeat destruct Hcases as [->|Hcases]; try reflexivity.
  by subst d.
Qed.

(** A percentage of the report: for a count between zero and the number of
    names seen, that number not zero, the text shown is
    [round(count / total * 100, 1)] with one digit after the point. *)
Lemma percent_correct st count :
  0 ≤ count ≤ len (csv_exercises st) → 0 < len (csv_exercises st) →
  ∃ t, percent_tenths count (len (csv_exercises st)) t
       ∧ 0 ≤ t
       ∧ percent st count = Done (str (t / 10) +:+ "." +:+ str (t mod 10)).
Proof.
  intros Hc Htot. unfold percent, percent_value.
  destruct (int_truediv_fraction count (len (csv_exercises st)) Hc Htot)
    as (q & Hdiv & Hq).
  destruct (int_truediv_rounded count (len (csv_exercises st)) Hc Htot)
    as (q' & Hdiv' & Hround).
  rewrite Hdiv in Hdiv'. injection Hdiv' as <-. rewrite Hdiv.
  cbn [mbind outcome_bind mret outcome_ret].
  pose proof (mul_int_100_rounded q Hq) as Hmul.
  destruct (mul_int_100_finite q Hq) as [Hx|(m & e & Hx)]; rewrite Hx in *.
  - exists 0. split; [|done]. split; [lia|].
    exists (Float.to_Q q), (Float.to_Q (S754_zero false)).
    do 2 (split; [done|]). by vm_compute.
  - exists (Float.tenths m e). split; [|split; [apply tenths_nonneg|]].
    + split; [lia|].
      exists (Float.to_Q q), (Float.to_Q (S754_finite false m e)).
      do 2 (split; [done|]). apply tenths_is_round1.
    + cbn [Float.format_1f Float.sign]. by rewrite fixed1_str.
Qed.

(** C8: when some name was seen, the two percentages of the summary are
    [round(mapped_count / total * 100, 1)] and
    [round(unmapped / total * 100, 1)]: the quotient of the two counts
    rounded to binary64, its product with 100 rounded to binary64, and that
    rounded to the nearest count of tenths, the even one at a tie.  No
    other count of tenths fits, and each is written as its integer part, a
    point and its last digit. *)
Theorem C8_percentages_rounded exercises_data csv_file st :
  let name_to_id := build_name_to_id exercises_data in
  scan_csv name_to_id csv_file = Done st →
  csv_exercises st ≠ ∅ →
  ∃ tm tu,
    percent_tenths (mapped_count st) (len (csv_exercises st)) tm
    ∧ percent_tenths (len (unmapped_exercises st)) (len (csv_exercises st)) tu
    ∧ (∀ t, percent_tenths (mapped_count st) (len (csv_exercises st)) t →
            t = tm)
    ∧ (∀ t, percent_tenths (len (unmapped_exercises st))
              (len (csv_exercises st)) t → t = tu)
    ∧ 0 ≤ tm ∧ 0 ≤ tu
    ∧ stdout (report_summary name_to_id st)
      = [nl +:+ rule;
         "📊 SUMMARY";
         rule;
         "Total unique exercises in CSV: " +:+ str (len (csv_exercises st));
         "Successfully mapped: " +:+ str (mapped_count st)
           +:+ " (" +:+ (str (tm / 10) +:+ "." +:+ str (tm mod 10)) +:+ "%)";
         "Missing mappings: " +:+ str (len (unmapped_exercises st))
           +:+ " (" +:+ (str (tu / 10) +:+ "." +:+ str (tu mod 10)) +:+ "%)";
         "Total workout dates: " +:+ str (len (csv_workouts st))]
        ++ stdout (report_sample name_to_id st).
Proof.
  intros name_to_id Hscan Hne.
  pose proof (scan_csv_counts _ _ _ Hscan) as Hcount.
  assert (0 < len (csv_exercises st)) as Htot.
  { unfold len. assert (size (csv_exercises st) ≠ 0%nat); [|lia].
    rewrite size_non_empty_iff. by intros ?%leibniz_equiv. }
  destruct (percent_correct st (mapped_count st))
    as (tm & Hrm & Htm & Hpm); [unfold mapped_count; lia|done|].
  destruct (percent_correct st (len (unmapped_exercises st)))
    as (tu & Hru & Htu & Hpu); [lia|done|].
  exists tm, tu. do 2 (split; [done|]).
  split; [intros t Ht; by apply (percent_tenths_unique _ _ _ _ Ht)|].
  split; [intros t Ht; by apply (percent_tenths_unique _ _ _ _ Ht)|].
  do 2 (split; [done|]).
  unfold report_summary. rewrite !stdout_print_bind.
  rewrite Hpm, stdout_eval_bind, stdout_print_bind.
  rewrite Hpu, stdout_eval_bind, !stdout_print_bind.
  done.
Qed.

Lemma C8_percentages_rounded_witness :
  ∃ tm tu,
    percent_tenths (mapped_count Sample.with_squat_state)
      (len (csv_exercises Sample.with_squat_state)) tm
    ∧ percent_tenths (len (unmapped_exercises Sample.with_squat_state))
        (len (csv_exercises Sample.with_squat_state)) tu
    ∧ (∀ t, percent_tenths (mapped_count Sample.with_squat_state)
              (len (csv_exercises Sample.with_squat_state)) t → t = tm)
    ∧ (∀ t, percent_tenths (len (unmapped_exercises Sample.with_squat_state))
              (len (csv_exercises Sample.with_squat_state)) t → t = tu)
    ∧ 0 ≤ tm ∧ 0 ≤ tu
    ∧ stdout (report_summary (build_name_to_id Sample.bench_press)
                Sample.with_squat_state)
      = [nl +:+ rule;
         "📊 SUMMARY";
         rule;
         "Total unique exercises in CSV: "
           +:+ str (len (csv_exercises Sample.with_squat_state));
         "Successfully mapped: " +:+ str (mapped_count Sample.with_squat_state)
           +:+ " (" +:+ (str (tm / 10) +:+ "." +:+ str (tm mod 10)) +:+ "%)";
         "Missing mappings: "
           +:+ str (len (unmapped_exercises Sample.with_squat_state))
           +:+ " (" +:+ (str (tu / 10) +:+ "." +:+ str (tu mod 10)) +:+ "%)";
         "Total workout dates: "
           +:+ str (len (csv_workouts Sample.with_squat_state))]
        ++ stdout (report_sample (build_name_to_id Sample.bench_press)
                     Sample.with_squat_state).
Proof.
  apply (C8_percentages_rounded Sample.bench_press Sample.with_squat Sample.with_squat_state).
  - vm_compute. reflexivity.
  - apply (bool_decide_unpack _). vm_compute. exact I.
Defined.

(** ** The script on the sample inputs *)

Example strip_lower_label :
  Py.strip (Py.lower "  Bench PRESS ") = "bench press"
  ∧ Py.strip "   " = ""
  ∧ sorted {["b"; "B"; "ab"; "aB"; ""; "a"]} = [""; "B"; "a"; "aB"; "ab"; "b"].
Proof. by vm_compute. Qed.

(** [1/16*100] is [6.25], a tie between [6.2] and [6.3]. *)
Example percent_tie :
  (q ← Float.int_truediv 1 16; mret (Float.format_1f (Float.mul_int q 100)))
  = Done "6.2".
Proof. by vm_compute. Qed.

Example percent_two_of_three :
  percent Sample.with_squat_state 2 = Done "66.7"
  ∧ percent Sample.with_squat_state 1 = Done "33.3".
Proof. by vm_compute. Qed.

(** The tenths shown for a ratio, from the float the script computes. *)
Lemma percent_tenths_computed count total m e t :
  0 ≤ count ≤ total → 0 < total →
  (q ← Float.int_truediv count total; mret (Float.mul_int q 100))
  = Done (S754_finite false m e) →
  Float.tenths m e = t →
  percent_tenths count total t.
Proof.
  intros Hc Htot Hx <-.
  destruct (int_truediv_fraction count total Hc Htot) as (q & Hdiv & Hq).
  destruct (int_truediv_rounded count total Hc Htot) as (q' & Hdiv' & Hround).
  rewrite Hdiv in Hdiv'. injection Hdiv' as <-. rewrite Hdiv in Hx.
  cbn [mbind outcome_bind mret outcome_ret] in Hx. injection Hx as Hx.
  pose proof (mul_int_100_rounded q Hq) as Hmul. rewrite Hx in Hmul.
  split; [lia|].
  exists (Float.to_Q q), (Float.to_Q (S754_finite false m e)).
  do 2 (split; [done|]). apply tenths_is_round1.
Qed.

(** Two of three names are 66.7 per cent, one of three 33.3; one of
    sixteen is 6.25, a tie that goes to the even 6.2. *)
Example percent_tenths_samples :
  percent_tenths 2 3 667 ∧ percent_tenths 1 3 333 ∧ percent_tenths 1 16 62.
Proof.
  split; [|split].
  - apply (percent_tenths_computed 2 3 4691249611844266 (-46));
      [lia|lia|by vm_compute|by vm_compute].
  - apply (percent_tenths_computed 1 3 4691249611844266 (-47));
      [lia|lia|by vm_compute|by vm_compute].
  - apply (percent_tenths_computed 1 16 7036874417766400 (-50));
      [lia|lia|by vm_compute|by vm_compute].
Qed.

Example main_with_squat :
  main Sample.bench_press Sample.with_squat
  = Run (preamble Sample.bench_press ++
         ["✅ Found 3 unique exercises in CSV";
          "✅ Found 2 unique workout dates in CSV" +:+ nl;
          rule;
          "📊 EXERCISE MAPPING VERIFICATION";
          rule;
          "✅ Mapped exercises: 2/3";
          "❌ Unmapped exercises: 1/3";
          nl +:+ "⚠️  WARNING: 1 exercises in CSV have no mapping:";
          "   - Squat";
          nl +:+ rule;
          "📊 SUMMARY";
          rule;
          "Total unique exercises in CSV: 3";
          "Successfully mapped: 2 (66.7%)";
          "Missing mappings: 1 (33.3%)";
          "Total workout dates: 2";
          nl +:+ "✅ Sample of successfully mapped exercises:";
          "   Bench Press → 1";
          "   bench press → 1";
          nl +:+ rule;
          "💡 NEXT STEPS";
          rule;
          "To fix unmapped exercises:";
          "1. Add missing exercises to exercises.json";
          "2. Re-run this verification script";
          "3. Once all mapped, you can verify against Firebase"])
        (Done tt).
Proof. by vm_compute. Qed.

(** Twenty-five unmapped names: twenty lines and the notice. *)
Example listing_of_25 :
  let names := (λ n, "E" +:+ pretty n) <$> seq 10 25 in
  stdout (report_unmapped
            {| csv_exercises := list_to_set names; csv_workouts := ∅;
               unmapped_exercises := list_to_set names |})
  = [nl +:+ "⚠️  WARNING: 25 exercises in CSV have no mapping:"]
    ++ ((λ n, "   - E" +:+ pretty n) <$> seq 10 20)
    ++ ["   ... and 5 more"].
Proof. by vm_compute. Qed.

(** * Further properties of the script *)

(** ** Which rows the loop body accepts *)

Lemma pad_lookup {V} (v : V) (keys : list string) (d : gmap string V) k :
  foldl (λ d key, <[key := v]> d) d keys !! k
  = if decide (k ∈ keys) then Some v else d !! k.
Proof.
  revert d. induction keys as [|k' keys IH]; intros d; simpl; [done|].
  rewrite IH. destruct (decide (k ∈ keys)) as [Hin|Hout].
  - rewrite decide_True; [done|by right].
  - destruct (decide (k = k')) as [->|Hne].
    + rewrite decide_True by left. apply lookup_insert_eq.
    + rewrite decide_False by (by intros [?|?]%elem_of_cons).
      by apply lookup_insert_ne.
Qed.

Lemma zip_lookup (kvs : list (string * string)) (d : gmap string cell) k :
  k ∈ kvs.*1 →
  ∃ v, v ∈ kvs.*2
       ∧ foldl (λ d kv, <[kv.1 := Some kv.2]> d) d kvs !! k = Some (Some v).
Proof.
  revert d. induction kvs as [|[k' v'] kvs IH]; intros d Hin; simpl in *.
  { by apply elem_of_nil in Hin. }
  destruct (decide (k ∈ kvs.*1)) as [Hk|Hk].
  - destruct (IH (<[k' := Some v']> d) Hk) as (v & Hv & Hlook).
    exists v. split; [by right|done].
  - apply elem_of_cons in Hin as [->|Hin]; [|done].
    exists v'. split; [by left|].
    assert (∀ d' : gmap string cell,
              foldl (λ d kv, <[kv.1 := Some kv.2]> d) d' kvs !! k' = d' !! k')
      as Hskip.
    { clear IH. induction kvs as [|[k2 v2] kvs IH]; intros d'; simpl; [done|].
      rewrite fmap_cons, not_elem_of_cons in Hk. destruct Hk as [Hne Hk].
      rewrite (IH Hk). by apply lookup_insert_ne. }
    rewrite Hskip. apply lookup_insert_eq.
Qed.

Lemma zip_fst_take (fieldnames row : list string) :
  (zip fieldnames row).*1 = take (length row) fieldnames.
Proof.
  revert row. induction fieldnames as [|x xs IH]; intros [|y ys]; simpl;
    try done. by rewrite IH.
Qed.

Lemma zip_snd_subseteq (fieldnames row : list string) v :
  v ∈ (zip fieldnames row).*2 → v ∈ row.
Proof.
  revert row. induction fieldnames as [|x xs IH]; intros [|y ys]; simpl;
    try (by intros ?%elem_of_nil).
  intros [->|Hin]%elem_of_cons; [by left|right]. by apply IH.
Qed.

(** A key of the padding reads as [None]. *)
Lemma make_row_padded fieldnames row k :
  k ∈ drop (length row) fieldnames → make_row fieldnames row !! k = Some None.
Proof.
  intros Hk. unfold make_row. rewrite pad_lookup. by rewrite decide_True.
Qed.

(** A key paired with a cell, and not padded, reads as a cell of the row. *)
Lemma make_row_cell fieldnames row k :
  k ∈ fieldnames → k ∉ drop (length row) fieldnames →
  ∃ v, v ∈ row ∧ make_row fieldnames row !! k = Some (Some v).
Proof.
  intros Hin Hpad. unfold make_row. rewrite pad_lookup.
  rewrite decide_False by done.
  rewrite <- (take_drop (length row) fieldnames), elem_of_app in Hin.
  destruct Hin as [Hin|Hin]; [|done].
  rewrite <- zip_fst_take in Hin.
  destruct (zip_lookup _ ∅ k Hin) as (v & Hv & Hlook).
  exists v. split; [by eapply zip_snd_subseteq|done].
Qed.

Lemma row_entry_succeeds fieldnames row :
  succeeds (row_entry (make_row fieldnames row)) ↔ row_ok fieldnames row.
Proof.
  unfold succeeds, row_ok, row_entry, getitem, cell_strip. split.
  - intros [p Hp].
    destruct (make_row fieldnames row !! "Exercise") as [[e|]|] eqn:H1;
      [|done..].
    destruct (make_row fieldnames row !! "Date") as [[d|]|] eqn:H2;
      [|done..].
    destruct (make_row fieldnames row !! "Reps") as [r|] eqn:H3; [|done].
    destruct (make_row fieldnames row !! "Weight(kg)") as [w|] eqn:H4;
      [|done].
    destruct (make_row fieldnames row !! "isWarmup") as [u|] eqn:H5; [|done].
    split; [|split].
    + intros c Hc. apply (make_row_keys fieldnames row).
      unfold required_columns in Hc.
      repeat (apply elem_of_cons in Hc as [->|Hc]; [by eexists|]).
      by apply elem_of_nil in Hc.
    + intros Hpad. apply (make_row_padded fieldnames row) in Hpad. congruence.
    + intros Hpad. apply (make_row_padded fieldnames row) in Hpad. congruence.
  - intros (Hcols & HE & HD).
    assert (∀ c, c ∈ required_columns →
              is_Some (make_row fieldnames row !! c)) as Hsome.
    { intros c Hc. by apply make_row_keys, Hcols. }
    destruct (make_row_cell fieldnames row "Exercise") as (e & _ & ->);
      [apply Hcols; set_solver|done|].
    destruct (make_row_cell fieldnames row "Date") as (d & _ & ->);
      [apply Hcols; set_solver|done|].
    destruct (Hsome "Reps") as [r ->]; [set_solver|].
    destruct (Hsome "Weight(kg)") as [w ->]; [set_solver|].
    destruct (Hsome "isWarmup") as [u ->]; [set_solver|].
    by eexists.
Qed.

(** The loop body does what [row_entry] computes, then updates the three
    collections. *)
Lemma scan_step_entry name_to_id st row :
  scan_step name_to_id st row
  = (p ← row_entry row;
     mret {| csv_exercises := {[log_name p.2]} ∪ csv_exercises st;
             csv_workouts := defaultdict_append (csv_workouts st) p.1 p.2;
             unmapped_exercises :=
               match name_to_id !! Py.lower (log_name p.2) with
               | Some _ => unmapped_exercises st
               | None => {[log_name p.2]} ∪ unmapped_exercises st
               end |}).
Proof.
  unfold scan_step, row_entry, getitem, cell_strip.
  destruct (row !! "Exercise") as [[e|]|]; [|done..].
  destruct (row !! "Date") as [[d|]|]; [|done..].
  destruct (row !! "Reps") as [r|]; [|done].
  destruct (row !! "Weight(kg)") as [w|]; [|done].
  by destruct (row !! "isWarmup") as [u|].
Qed.

Lemma scan_rows_succeeds name_to_id rows : ∀ st,
  succeeds (scan_rows name_to_id st rows)
  ↔ Forall (λ row, succeeds (row_entry row)) rows.
Proof.
  induction rows as [|row rows IH]; intros st; simpl.
  - split; [by constructor|by eexists].
  - rewrite Forall_cons, scan_step_entry.
    destruct (row_entry row) as [p|e]; simpl.
    + rewrite IH. split; [intros ?; split; [by eexists|done]|by intros [_ ?]].
    + split; [by intros [? ?]|by intros [[? ?] _]].
Qed.

(** X1: the scan ends without an exception exactly when every data row
    (a row that is not blank) is acceptable: the header names the five
    columns the loop subscripts, and the row is long enough to give a
    cell to [Exercise] and to [Date]. *)
Theorem scan_csv_succeeds_iff name_to_id fieldnames rows :
  succeeds (scan_csv name_to_id (fieldnames :: rows))
  ↔ ∀ row, row ∈ rows → row ≠ [] → row_ok fieldnames row.
Proof.
  unfold scan_csv, DictReader. rewrite scan_rows_succeeds, Forall_fmap.
  rewrite Forall_forall. split.
  - intros Hall row Hin Hne. apply row_entry_succeeds, Hall.
    by apply list_elem_of_filter.
  - intros Hall row [Hne Hin]%list_elem_of_filter.
    apply row_entry_succeeds. by apply Hall.
Qed.

Lemma sample_header_columns c : c ∈ required_columns → c ∈ Sample.header.
Proof.
  unfold required_columns. intros Hc.
  repeat (apply elem_of_cons in Hc as [->|Hc];
          [apply (bool_decide_unpack _); by vm_compute|]).
  by apply elem_of_nil in Hc.
Qed.

Lemma scan_csv_succeeds_iff_witness :
  succeeds (scan_csv ∅ Sample.with_squat)
  ∧ ¬ succeeds (scan_csv ∅ [Sample.header; ["2024-01-01"]]).
Proof.
  split.
  - apply (scan_csv_succeeds_iff ∅ Sample.header). intros row Hin Hne.
    split; [apply sample_header_columns|].
    repeat (apply elem_of_cons in Hin as [->|Hin];
            [try done; split; apply (bool_decide_unpack _); by vm_compute|]).
    by apply elem_of_nil in Hin.
  - intros Hs.
    destruct (proj1 (scan_csv_succeeds_iff ∅ Sample.header [["2024-01-01"]])
                Hs ["2024-01-01"]) as (_ & Hex & _); [by left|done|].
    apply Hex. apply (bool_decide_unpack _). by vm_compute.
Defined.

(** X2: a data row too short to give a cell to [Exercise], under a
    header that names [Exercise], stops the scan with the [AttributeError]
    of [None.strip()]; so does a row too short for [Date] but not for
    [Exercise].  The padding of a short row is [None], not a text. *)
Theorem short_row_attribute_error name_to_id st fieldnames row :
  ("Exercise" ∈ drop (length row) fieldnames
   ∨ "Exercise" ∈ fieldnames ∧ "Date" ∈ drop (length row) fieldnames) →
  scan_step name_to_id st (make_row fieldnames row) = Raised AttributeError.
Proof.
  intros Hshort. rewrite scan_step_entry.
  assert (row_entry (make_row fieldnames row) = Raised AttributeError) as ->;
    [|done].
  unfold row_entry, getitem, cell_strip.
  destruct (decide ("Exercise" ∈ drop (length row) fieldnames)) as [HE|HE].
  { by rewrite (make_row_padded _ _ _ HE). }
  destruct Hshort as [?|[Hin HD]]; [done|].
  destruct (make_row_cell fieldnames row "Exercise" Hin HE) as (e & _ & ->).
  by rewrite (make_row_padded _ _ _ HD).
Qed.

Lemma short_row_attribute_error_witness :
  scan_csv ∅ [Sample.header; ["2024-01-01"]] = Raised AttributeError.
Proof.
  unfold scan_csv. simpl.
  rewrite (short_row_attribute_error ∅ scan_init Sample.header ["2024-01-01"]);
    [done|].
  left. apply (bool_decide_unpack _). by vm_compute.
Defined.

(** X3: a data row long enough for [Exercise] and [Date] but too short
    for [Reps], [Weight(kg)] or [isWarmup] raises nothing: the loop body
    appends, under the trimmed text of the row's [Date] cell, an entry
    named by the trimmed text of its [Exercise] cell, whose fields for the
    missing cells are [None]; the lists of the other dates stay as they
    were. *)
Theorem short_row_stores_none name_to_id st fieldnames row :
  row_ok fieldnames row →
  ∃ st' e d entry,
    make_row fieldnames row !! "Exercise" = Some (Some e)
    ∧ make_row fieldnames row !! "Date" = Some (Some d)
    ∧ e ∈ row ∧ d ∈ row
    ∧ scan_step name_to_id st (make_row fieldnames row) = Done st'
    ∧ csv_workouts st' !! Py.strip d
      = Some (default [] (csv_workouts st !! Py.strip d) ++ [entry])
    ∧ (∀ k, k ≠ Py.strip d → csv_workouts st' !! k = csv_workouts st !! k)
    ∧ log_name entry = Py.strip e
    ∧ log_reps entry = default None (make_row fieldnames row !! "Reps")
    ∧ log_weight entry
      = default None (make_row fieldnames row !! "Weight(kg)")
    ∧ log_isWarmup entry
      = default None (make_row fieldnames row !! "isWarmup")
    ∧ ("Reps" ∈ drop (length row) fieldnames → log_reps entry = None)
    ∧ ("Weight(kg)" ∈ drop (length row) fieldnames → log_weight entry = None)
    ∧ ("isWarmup" ∈ drop (length row) fieldnames → log_isWarmup entry = None).
Proof.
  intros (Hcols & HE & HD).
  destruct (make_row_cell fieldnames row "Exercise") as (e & He & HrowE);
    [apply Hcols; set_solver|done|].
  destruct (make_row_cell fieldnames row "Date") as (d & Hd & HrowD);
    [apply Hcols; set_solver|done|].
  assert (∀ c, c ∈ required_columns →
            is_Some (make_row fieldnames row !! c)) as Hsome.
  { intros c Hc. by apply make_row_keys, Hcols. }
  destruct (Hsome "Reps") as [r Hr]; [set_solver|].
  destruct (Hsome "Weight(kg)") as [w Hw]; [set_solver|].
  destruct (Hsome "isWarmup") as [u Hu]; [set_solver|].
  eexists _, e, d,
    {| log_name := Py.strip e; log_reps := r; log_weight := w;
       log_isWarmup := u |}.
  do 4 (split; [done|]). split.
  { unfold scan_step, getitem, cell_strip.
    rewrite HrowE, HrowD, Hr, Hw, Hu. reflexivity. }
  cbn [csv_workouts log_name log_reps log_weight log_isWarmup].
  unfold defaultdict_append. rewrite Hr, Hw, Hu.
  split; [apply lookup_insert_eq|].
  split; [intros k Hk; by apply lookup_insert_ne|].
  do 4 (split; [done|]).
  split; [|split]; intros Hpad%(make_row_padded fieldnames row); congruence.
Qed.

Lemma short_row_stores_none_witness :
  ∃ st' e d entry,
    make_row Sample.header Sample.short_row !! "Exercise" = Some (Some e)
    ∧ make_row Sample.header Sample.short_row !! "Date" = Some (Some d)
    ∧ e ∈ Sample.short_row ∧ d ∈ Sample.short_row
    ∧ scan_step ∅ scan_init (make_row Sample.header Sample.short_row)
      = Done st'
    ∧ csv_workouts st' !! Py.strip d
      = Some (default [] (csv_workouts scan_init !! Py.strip d) ++ [entry])
    ∧ (∀ k, k ≠ Py.strip d →
         csv_workouts st' !! k = csv_workouts scan_init !! k)
    ∧ log_name entry = Py.strip e
    ∧ log_reps entry
      = default None (make_row Sample.header Sample.short_row !! "Reps")
    ∧ log_weight entry
      = default None (make_row Sample.header Sample.short_row !! "Weight(kg)")
    ∧ log_isWarmup entry
      = default None (make_row Sample.header Sample.short_row !! "isWarmup")
    ∧ ("Reps" ∈ drop (length Sample.short_row) Sample.header →
       log_reps entry = None)
    ∧ ("Weight(kg)" ∈ drop (length Sample.short_row) Sample.header →
       log_weight entry = None)
    ∧ ("isWarmup" ∈ drop (length Sample.short_row) Sample.header →
       log_isWarmup entry = None).
Proof.
  apply (short_row_stores_none ∅ scan_init Sample.header Sample.short_row).
  split; [apply sample_header_columns|].
  split; apply (bool_decide_unpack _); vm_compute; exact I.
Defined.

(** The loop body on the short sample row, in full. *)
Example short_row_example :
  scan_step ∅ scan_init (make_row Sample.header Sample.short_row)
  = Done {| csv_exercises := {["Squat"]};
            csv_workouts :=
              {["2024-01-01" :=
                  [{| log_name := "Squat"; log_reps := Some "5";
                      log_weight := None; log_isWarmup := None |}]]};
            unmapped_exercises := {["Squat"]} |}.
Proof. by vm_compute. Qed.

(** ** What the scan collects *)

Lemma entries_on_cons d p entries :
  entries_on d (p :: entries)
  = if decide (p.1 = d) then p.2 :: entries_on d entries
    else entries_on d entries.
Proof. unfold entries_on. rewrite filter_cons. by destruct (decide (p.1 = d)). Qed.

(** The collections after a run of the loop, from the collections before
    it and the entries of the rows it read. *)
Lemma scan_rows_entries name_to_id rows : ∀ st st',
  scan_rows name_to_id st rows = Done st' →
  ∃ entries,
    Forall2 (λ row p, row_entry row = Done p) rows entries
    ∧ csv_exercises st'
      = list_to_set (log_name <$> entries.*2) ∪ csv_exercises st
    ∧ unmapped_exercises st'
      = list_to_set (filter (λ x, name_to_id !! Py.lower x = None)
                       (log_name <$> entries.*2))
        ∪ unmapped_exercises st
    ∧ ∀ d, csv_workouts st' !! d
           = match entries_on d entries with
             | [] => csv_workouts st !! d
             | es => Some (default [] (csv_workouts st !! d) ++ es)
             end.
Proof.
  induction rows as [|row rows IH]; intros st st'; simpl.
  - intros [= <-]. exists []. split; [constructor|].
    split; [set_solver|]. split; [set_solver|done].
  - rewrite scan_step_entry.
    destruct (row_entry row) as [[d0 entry]|] eqn:Hrow; [|done]. simpl.
    intros (entries & Hall & Hex & Hun & Hw)%IH. simpl in *.
    exists ((d0, entry) :: entries). split; [by constructor|].
    split; [rewrite Hex; set_solver|]. split.
    + rewrite Hun. simpl. rewrite filter_cons.
      destruct (name_to_id !! Py.lower (log_name entry)) as [i|] eqn:Hlook.
      * by rewrite decide_False.
      * rewrite decide_True by done. set_solver.
    + intros d. rewrite Hw, entries_on_cons. unfold defaultdict_append. simpl.
      destruct (decide (d0 = d)) as [->|Hne].
      * rewrite lookup_insert_eq. simpl.
        destruct (entries_on d entries); [done|]. by rewrite <- app_assoc.
      * by rewrite lookup_insert_ne.
Qed.

(** X4: after a scan that did not raise, the names seen are the trimmed
    [Exercise] cells of the data rows, and the unmapped names are those
    among them whose lower-cased form is not a key of the dictionary. *)
Theorem scan_csv_names name_to_id f st :
  scan_csv name_to_id f = Done st →
  ∃ entries,
    Forall2 (λ row p, row_entry row = Done p) (DictReader f) entries
    ∧ (∀ x, x ∈ csv_exercises st ↔ ∃ p, p ∈ entries ∧ x = log_name p.2)
    ∧ (∀ x, x ∈ unmapped_exercises st
            ↔ x ∈ csv_exercises st ∧ name_to_id !! Py.lower x = None).
Proof.
  intros Hscan.
  destruct (scan_rows_entries _ _ _ _ Hscan) as (entries & Hall & Hex & Hun & _).
  exists entries. split; [done|].
  assert (∀ x, x ∈ log_name <$> entries.*2 ↔ ∃ p, p ∈ entries ∧ x = log_name p.2)
    as Hmem.
  { intros x. rewrite <- list_fmap_compose, list_elem_of_fmap. naive_solver. }
  split.
  - intros x. rewrite Hex. simpl. rewrite <- Hmem. set_solver.
  - intros x. rewrite Hun, Hex. simpl.
    rewrite !elem_of_union, !elem_of_list_to_set, list_elem_of_filter.
    set_solver.
Qed.

Lemma scan_csv_names_witness :
  "Squat" ∈ unmapped_exercises Sample.with_squat_state
  ↔ "Squat" ∈ csv_exercises Sample.with_squat_state
    ∧ build_name_to_id Sample.bench_press !! Py.lower "Squat" = None.
Proof.
  destruct (scan_csv_names (build_name_to_id Sample.bench_press)
              Sample.with_squat Sample.with_squat_state)
    as (entries & _ & _ & Hun); [vm_compute; reflexivity|exact (Hun "Squat")].
Defined.

(** X5: after a scan that did not raise, [csv_workouts] holds under each
    trimmed date the entries of the rows of that date, in the order of the
    rows, and has no key for a date without a row. *)
Theorem scan_csv_groups_by_date name_to_id f st :
  scan_csv name_to_id f = Done st →
  ∃ entries,
    Forall2 (λ row p, row_entry row = Done p) (DictReader f) entries
    ∧ ∀ d, csv_workouts st !! d
           = match entries_on d entries with
             | [] => None
             | es => Some es
             end.
Proof.
  intros Hscan.
  destruct (scan_rows_entries _ _ _ _ Hscan) as (entries & Hall & _ & _ & Hw).
  exists entries. split; [done|]. intros d. rewrite Hw. simpl.
  by rewrite lookup_empty.
Qed.

Lemma scan_csv_groups_by_date_witness :
  ∃ entries,
    Forall2 (λ row p, row_entry row = Done p)
      (DictReader Sample.with_squat) entries
    ∧ csv_workouts Sample.with_squat_state !! "2024-01-02"
      = match entries_on "2024-01-02" entries with
        | [] => None
        | es => Some es
        end.
Proof.
  destruct (scan_csv_groups_by_date (build_name_to_id Sample.bench_press)
              Sample.with_squat Sample.with_squat_state)
    as (entries & Hall & Hw); [vm_compute; reflexivity|].
  exists entries. split; [exact Hall|exact (Hw "2024-01-02")].
Defined.

Lemma total_entries_append (w : gmap string (list LogEntry)) d x :
  total_entries (defaultdict_append w d x) = S (total_entries w).
Proof.
  unfold total_entries, defaultdict_append.
  destruct (w !! d) as [l|] eqn:Hd; simpl.
  - rewrite <- insert_delete_eq.
    rewrite map_fold_insert_L; [|intros; lia|apply lookup_delete_eq].
    rewrite (map_fold_delete_L _ _ d l w); [|intros; lia|done].
    rewrite length_app. simpl. lia.
  - rewrite map_fold_insert_L; [done|intros; lia|done].
Qed.

Lemma scan_rows_counts name_to_id rows : ∀ st st',
  scan_rows name_to_id st rows = Done st' →
  total_entries (csv_workouts st')
  = (total_entries (csv_workouts st) + length rows)%nat
  ∧ (size (csv_workouts st') ≤ size (csv_workouts st) + length rows)%nat
  ∧ (size (csv_exercises st') ≤ size (csv_exercises st) + length rows)%nat.
Proof.
  induction rows as [|row rows IH]; intros st st'; simpl.
  - intros [= <-]. lia.
  - rewrite scan_step_entry.
    destruct (row_entry row) as [[d0 entry]|]; [|done]. simpl.
    intros (Ht & Hw & He)%IH. simpl in *.
    rewrite total_entries_append in Ht.
    split; [lia|]. split.
    + unfold defaultdict_append in Hw. rewrite map_size_insert in Hw.
      destruct (csv_workouts st !! d0); unfold id in Hw; lia.
    + rewrite size_union_alt, size_singleton in He.
      pose proof (subseteq_size (csv_exercises st ∖ {[log_name entry]})
                    (csv_exercises st) ltac:(set_solver)).
      lia.
Qed.

(** X6: after a scan that did not raise, [csv_workouts] holds as many
    entries, over all dates, as the file has data rows; no date has an
    empty list; and neither the number of dates nor the number of names
    exceeds the number of data rows. *)
Theorem scan_csv_counts_rows name_to_id f st :
  scan_csv name_to_id f = Done st →
  total_entries (csv_workouts st) = length (DictReader f)
  ∧ (∀ d es, csv_workouts st !! d = Some es → es ≠ [])
  ∧ len (csv_workouts st) ≤ Z.of_nat (length (DictReader f))
  ∧ len (csv_exercises st) ≤ Z.of_nat (length (DictReader f)).
Proof.
  intros Hscan.
  destruct (scan_rows_counts _ _ _ _ Hscan) as (Ht & Hw & He).
  destruct (scan_rows_entries _ _ _ _ Hscan) as (entries & _ & _ & _ & Hgrp).
  change (total_entries (csv_workouts scan_init)) with 0%nat in Ht.
  change (size (csv_workouts scan_init)) with (size (∅ : gmap string (list LogEntry))) in Hw.
  change (size (csv_exercises scan_init)) with (size (∅ : gset string)) in He.
  rewrite map_size_empty in Hw. rewrite size_empty in He.
  split; [done|]. split; [|unfold len; lia].
  intros d es. rewrite Hgrp. simpl. rewrite lookup_empty.
  destruct (entries_on d entries); [done|]. by intros [= <-].
Qed.

Lemma scan_csv_counts_rows_witness :
  total_entries (csv_workouts Sample.with_squat_state) = 3%nat.
Proof.
  apply (scan_csv_counts_rows (build_name_to_id Sample.bench_press)
           Sample.with_squat Sample.with_squat_state).
  vm_compute. reflexivity.
Defined.

(** ** What the dictionary holds *)

Lemma name_to_id_fold_Some items : ∀ (m : gmap string string) k i,
  foldl name_to_id_step m items !! k = Some i →
  m !! k = Some i ∨ ∃ data, (i, data) ∈ items ∧ k ∈ keys_written data.
Proof.
  induction items as [|[i0 data0] items IH]; intros m k i; cbn [foldl];
    [by left|].
  intros [Hstep|(data & Hin & Hk)]%IH.
  - destruct (decide (k ∈ keys_written data0)) as [Hk|Hk].
    + rewrite name_to_id_step_written in Hstep by done.
      injection Hstep as <-. right. exists data0. split; [by left|done].
    + rewrite name_to_id_step_other in Hstep by done. by left.
  - right. exists data. split; [by right|done].
Qed.

Lemma name_to_id_fold_is_Some items : ∀ (m : gmap string string) k,
  is_Some (m !! k) ∨ (∃ item, item ∈ items ∧ k ∈ keys_written item.2) →
  is_Some (foldl name_to_id_step m items !! k).
Proof.
  induction items as [|[i0 data0] items IH]; intros m k; cbn [foldl].
  - intros [?|(? & []%elem_of_nil & _)]. done.
  - intros Hk. apply IH.
    destruct (decide (k ∈ keys_written data0)) as [Hw|Hw].
    + left. rewrite name_to_id_step_written by done. by eexists.
    + rewrite name_to_id_step_other by done.
      destruct Hk as [?|(item & [->|Hin]%elem_of_cons & Hitem)];
        [by left|done|right; by exists item].
Qed.

(** X7: every id stored in the dictionary is the id of a record of the
    file, stored under the normalized name of that record or under its
    normalized non-empty export name; and every record of the file has its
    normalized name, and its normalized non-empty export name, among the
    keys. *)
Theorem name_to_id_sound_complete exercises_data :
  (∀ k i, build_name_to_id exercises_data !! k = Some i →
     ∃ data, (i, data) ∈ exercises_data
       ∧ (k = normalized (name data)
          ∨ ∃ en, exportName data = Some en ∧ en ≠ "" ∧ k = normalized en))
  ∧ (∀ i data, (i, data) ∈ exercises_data →
       is_Some (build_name_to_id exercises_data !! normalized (name data))
       ∧ ∀ en, exportName data = Some en → en ≠ "" →
           is_Some (build_name_to_id exercises_data !! normalized en)).
Proof.
  unfold build_name_to_id. split.
  - intros k i [Hempty|(data & Hin & Hk)]%name_to_id_fold_Some.
    + by rewrite lookup_empty in Hempty.
    + exists data. split; [done|]. by apply keys_written_spec.
  - intros i data Hin. split.
    + apply name_to_id_fold_is_Some. right. exists (i, data).
      split; [done|]. apply keys_written_spec. by left.
    + intros en Hen Hne. apply name_to_id_fold_is_Some. right.
      exists (i, data). split; [done|]. apply keys_written_spec.
      right. by exists en.
Qed.

Lemma name_to_id_sound_complete_witness :
  is_Some (build_name_to_id Sample.bench_press !! normalized "Bench Press").
Proof.
  destruct (proj2 (name_to_id_sound_complete Sample.bench_press) "1"
              {| name := "Bench Press"; exportName := None |}) as [Hname _];
    [by left|exact Hname].
Defined.

(** X8: a CSV cell that equals a record's name, or its non-empty export
    name, up to letter case and surrounding whitespace is never reported
    as unmapped. *)
Theorem matching_label_is_mapped exercises_data f st i data e :
  (i, data) ∈ exercises_data →
  scan_csv (build_name_to_id exercises_data) f = Done st →
  (normalized e = normalized (name data)
   ∨ ∃ en, exportName data = Some en ∧ en ≠ "" ∧ normalized e = normalized en) →
  Py.strip e ∉ unmapped_exercises st.
Proof.
  intros Hin (Hsub & _ & Hcls)%scan_csv_inv Hmatch Hun.
  apply Hcls in Hun as Hnone; [|by apply Hsub].
  rewrite lower_strip in Hnone. fold (normalized e) in Hnone.
  assert (is_Some (build_name_to_id exercises_data !! normalized e)) as [? ?];
    [|congruence].
  apply name_to_id_fold_is_Some. right. exists (i, data). split; [done|].
  by apply keys_written_spec.
Qed.

Lemma matching_label_is_mapped_witness :
  Py.strip "  BENCH press " ∉ unmapped_exercises Sample.with_squat_state.
Proof.
  apply (matching_label_is_mapped Sample.bench_press Sample.with_squat
           Sample.with_squat_state "1"
           {| name := "Bench Press"; exportName := None |}).
  - by left.
  - vm_compute. reflexivity.
  - left. vm_compute. reflexivity.
Defined.

(** ** Running the script again with more records *)

Lemma row_entries_unique rows : ∀ entries1 entries2,
  Forall2 (λ row p, row_entry row = Done p) rows entries1 →
  Forall2 (λ row p, row_entry row = Done p) rows entries2 →
  entries1 = entries2.
Proof.
  induction rows as [|row rows IH]; intros e1 e2 H1 H2.
  - apply Forall2_nil_inv_l in H1, H2. by subst.
  - apply Forall2_cons_inv_l in H1 as (p1 & e1' & Hp1 & H1 & ->).
    apply Forall2_cons_inv_l in H2 as (p2 & e2' & Hp2 & H2 & ->).
    rewrite Hp1 in Hp2. injection Hp2 as <-. f_equal. by apply IH.
Qed.

(** X9: the advice printed under NEXT STEPS holds.  Running the script
    again on the same CSV with records added to the file raises nothing
    if the first run raised nothing, finds the same names and the same
    entries, reports no name as unmapped that was mapped before, and no
    longer reports a name for which a record of that name was added. *)
Theorem more_records_fewer_unmapped exercises_data added f st :
  scan_csv (build_name_to_id exercises_data) f = Done st →
  ∃ st',
    scan_csv (build_name_to_id (exercises_data ++ added)) f = Done st'
    ∧ csv_exercises st' = csv_exercises st
    ∧ csv_workouts st' = csv_workouts st
    ∧ unmapped_exercises st' ⊆ unmapped_exercises st
    ∧ ∀ x i en, x ∈ unmapped_exercises st →
        (i, {| name := x; exportName := en |}) ∈ added →
        x ∉ unmapped_exercises st'.
Proof.
  intros Hscan.
  assert (succeeds (scan_csv (build_name_to_id (exercises_data ++ added)) f))
    as [st' Hscan'].
  { unfold scan_csv. apply scan_rows_succeeds.
    apply (scan_rows_succeeds (build_name_to_id exercises_data) _ scan_init).
    by exists st. }
  exists st'. split; [done|].
  destruct (scan_rows_entries _ _ _ _ Hscan) as (es & Hes & Hex & Hun & Hw).
  destruct (scan_rows_entries _ _ _ _ Hscan')
    as (es' & Hes' & Hex' & Hun' & Hw').
  assert (es' = es) as -> by (by eapply row_entries_unique).
  assert (∀ k, is_Some (build_name_to_id exercises_data !! k) →
               is_Some (build_name_to_id (exercises_data ++ added) !! k))
    as Hmono.
  { intros k Hk. unfold build_name_to_id. rewrite foldl_app.
    apply name_to_id_fold_is_Some. by left. }
  split; [by rewrite Hex, Hex'|].
  split; [apply map_eq; intros d; by rewrite Hw, Hw'|].
  split.
  - rewrite Hun, Hun'. simpl. intros x.
    rewrite !elem_of_union, !elem_of_list_to_set, !list_elem_of_filter.
    intros [[Hnone Hin]|Hin]; [left|by right]. split; [|done].
    apply eq_None_not_Some. intros Hsome%Hmono. by rewrite Hnone in Hsome.
  - intros x i en Hx Hadd Hx'.
    pose proof (scan_csv_inv _ _ _ Hscan) as (Hsub & Htrim & _).
    pose proof (scan_csv_inv _ _ _ Hscan') as (Hsub' & _ & Hcls').
    apply Hcls' in Hx' as Hnone; [|by apply Hsub'].
    assert (is_Some (build_name_to_id (exercises_data ++ added) !! Py.lower x))
      as [? ?]; [|congruence].
    unfold build_name_to_id. rewrite foldl_app.
    apply name_to_id_fold_is_Some. right.
    exists (i, {| name := x; exportName := en |}). split; [done|].
    apply keys_written_spec. left. simpl. unfold normalized.
    rewrite <- lower_strip. f_equal. symmetry. apply strip_id, Htrim.
    by apply Hsub.
Qed.

Lemma more_records_fewer_unmapped_witness :
  ∃ st',
    scan_csv (build_name_to_id
                (Sample.bench_press
                 ++ [("2", {| name := "Squat"; exportName := None |})]))
      Sample.with_squat = Done st'
    ∧ "Squat" ∉ unmapped_exercises st'.
Proof.
  destruct (more_records_fewer_unmapped Sample.bench_press
              [("2", {| name := "Squat"; exportName := None |})]
              Sample.with_squat Sample.with_squat_state)
    as (st' & Hscan' & _ & _ & _ & Hfix); [vm_compute; reflexivity|].
  exists st'. split; [exact Hscan'|].
  apply (Hfix "Squat" "2" None).
  - apply (bool_decide_unpack _). vm_compute. exact I.
  - by left.
Defined.

(** ** How the script ends *)

Lemma res_print_bind {A} (s : string) (k : Prog A) :
  res (print s;; k) = res k.
Proof. by destruct k. Qed.

Lemma res_bind_Done {A B} (m : Prog A) (k : A → Prog B) a :
  res m = Done a → res (m ≫= k) = res (k a).
Proof. destruct m as [o r]; simpl. intros ->. by destruct (k a). Qed.

Lemma res_report_unmapped st : res (report_unmapped st) = Done tt.
Proof.
  unfold report_unmapped. destruct (bool_decide _); [|done].
  rewrite res_print_bind. simpl.
  by destruct (20 <? len (unmapped_exercises st)).
Qed.

Lemma res_report_mapping st : res (report_mapping st) = Done tt.
Proof.
  unfold report_mapping. rewrite !res_print_bind. apply res_report_unmapped.
Qed.

Lemma res_report_sample name_to_id st :
  res (report_sample name_to_id st) = Done tt.
Proof. unfold report_sample. by destruct (0 <? mapped_count st). Qed.

Lemma res_report_next_steps st : res (report_next_steps st) = Done tt.
Proof. unfold report_next_steps. by destruct (bool_decide _). Qed.

Lemma res_report name_to_id st :
  unmapped_exercises st ⊆ csv_exercises st →
  res (report name_to_id st)
  = if decide (csv_exercises st = ∅) then Raised ZeroDivisionError
    else Done tt.
Proof.
  intros Hsub. unfold report. rewrite !res_print_bind.
  rewrite (res_bind_Done _ _ tt) by apply res_report_mapping.
  unfold report_summary at 1.
  destruct (decide (csv_exercises st = ∅)) as [Hempty|Hne].
  - assert (res (report_summary name_to_id st) = Raised ZeroDivisionError)
      as Hsum.
    { unfold report_summary. rewrite !res_print_bind.
      unfold percent, percent_value, Float.int_truediv.
      rewrite Hempty. by vm_compute. }
    fold (report_summary name_to_id st).
    destruct (report_summary name_to_id st) as [o r]. simpl in *. by subst.
  - fold (report_summary name_to_id st).
    assert (res (report_summary name_to_id st) = Done tt) as Hsum.
    { pose proof (subseteq_size _ _ Hsub) as Hsize.
      assert (0 < len (csv_exercises st)) as Htot.
      { unfold len. assert (size (csv_exercises st) ≠ 0%nat); [|lia].
        rewrite size_non_empty_iff. by intros ?%leibniz_equiv. }
      destruct (percent_rounded st (mapped_count st))
        as (? & tm & _ & _ & _ & _ & Hpm);
        [unfold mapped_count, len in *; lia|done|].
      destruct (percent_rounded st (len (unmapped_exercises st)))
        as (? & tu & _ & _ & _ & _ & Hpu); [unfold len in *; lia|done|].
      unfold report_summary. rewrite !res_print_bind.
      rewrite Hpm. rewrite (res_bind_Done _ _ (Float.fixed1 tm)) by done.
      rewrite res_print_bind.
      rewrite Hpu. rewrite (res_bind_Done _ _ (Float.fixed1 tu)) by done.
      rewrite !res_print_bind. apply res_report_sample. }
    rewrite (res_bind_Done _ _ tt) by done. apply res_report_next_steps.
Qed.

Lemma scan_csv_no_names name_to_id f st :
  scan_csv name_to_id f = Done st →
  csv_exercises st = ∅ ↔ DictReader f = [].
Proof.
  intros Hscan.
  destruct (scan_rows_entries _ _ _ _ Hscan) as (es & Hes & Hex & _).
  rewrite Hex. simpl. split.
  - intros Hempty. destruct Hes as [|row p rows es' _ _]; [done|].
    simpl in Hempty. set_solver.
  - intros Hrows. rewrite Hrows in Hes.
    apply Forall2_nil_inv_l in Hes as ->. set_solver.
Qed.

(** X10: how the script ends.  It stops with the exception of the scan
    when the scan raises; with [ZeroDivisionError] when the scan raises
    nothing and the file has no data row; and it runs to its last line
    in every other case. *)
Theorem main_result exercises_data f :
  res (main exercises_data f)
  = match scan_csv (build_name_to_id exercises_data) f with
    | Raised e => Raised e
    | Done _ =>
        if decide (DictReader f = []) then Raised ZeroDivisionError
        else Done tt
    end.
Proof.
  rewrite main_unfold.
  destruct (scan_csv (build_name_to_id exercises_data) f) as [st|e] eqn:Hscan;
    [|done].
  pose proof (scan_csv_inv _ _ _ Hscan) as (Hsub & _).
  pose proof (res_report (build_name_to_id exercises_data) st Hsub) as Hres.
  destruct (report (build_name_to_id exercises_data) st) as [o r].
  simpl in *. subst r.
  pose proof (scan_csv_no_names _ _ _ Hscan) as Hiff.
  destruct (decide (csv_exercises st = ∅)) as [He|He];
    destruct (decide (DictReader f = [])) as [Hr|Hr]; try done.
  - by apply Hiff in He.
  - by apply Hiff in Hr.
Qed.

(** ** The percentages at the two ends *)

(** [n / n] is the float [1.0]. *)
Lemma int_truediv_self n :
  0 < n →
  Float.int_truediv n n = Done (S754_finite false 4503599627370496 (-52)).
Proof.
  intros Hn. unfold Float.int_truediv.
  rewrite (proj2 (Z.eqb_neq n 0)) by lia.
  destruct n as [|p|p]; [lia| |lia].
  cbn [Float.exact SFdiv xorb]. unfold SFdiv_core_binary.
  replace (Zdigits2 (Zpos p) + 0 - (Zdigits2 (Zpos p) + 0)) with 0 by lia.
  change (Z.min (fexp Float.prec Float.emax 0) (0 - 0)) with (-53).
  change (0 - 0 - -53) with 53. lazy iota.
  rewrite Z.shiftl_mul_pow2 by lia.
  assert (Z.div_eucl (Zpos p * 2 ^ 53) (Zpos p) = (2 ^ 53, 0)) as ->.
  { pose proof (Z_div_mod (Zpos p * 2 ^ 53) (Zpos p) eq_refl) as Hdiv.
    destruct (Z.div_eucl (Zpos p * 2 ^ 53) (Zpos p)) as [q r].
    destruct Hdiv as [Hq Hr].
    assert (q = 2 ^ 53) as -> by nia. f_equal. lia. }
  assert (new_location (Zpos p) 0 = loc_Exact) as ->.
  { unfold new_location. by destruct (Z.even (Zpos p)). }
  by vm_compute.
Qed.

(** [0 / n] is the float [0.0]. *)
Lemma int_truediv_zero n :
  0 < n → Float.int_truediv 0 n = Done (S754_zero false).
Proof.
  intros Hn. unfold Float.int_truediv.
  rewrite (proj2 (Z.eqb_neq n 0)) by lia.
  by destruct n as [|p|p]; [lia| |lia].
Qed.

Lemma percent_all st :
  0 < len (csv_exercises st) →
  percent st (len (csv_exercises st)) = Done "100.0"
  ∧ percent st 0 = Done "0.0".
Proof.
  intros Htot. unfold percent, percent_value.
  rewrite int_truediv_self, int_truediv_zero by done. by vm_compute.
Qed.

Lemma report_summary_lines name_to_id st pm pu :
  percent st (mapped_count st) = Done pm →
  percent st (len (unmapped_exercises st)) = Done pu →
  stdout (report_summary name_to_id st)
  = [nl +:+ rule;
     "📊 SUMMARY";
     rule;
     "Total unique exercises in CSV: " +:+ str (len (csv_exercises st));
     "Successfully mapped: " +:+ str (mapped_count st)
       +:+ " (" +:+ pm +:+ "%)";
     "Missing mappings: " +:+ str (len (unmapped_exercises st))
       +:+ " (" +:+ pu +:+ "%)";
     "Total workout dates: " +:+ str (len (csv_workouts st))]
    ++ stdout (report_sample name_to_id st).
Proof.
  intros Hpm Hpu. unfold report_summary. rewrite !stdout_print_bind.
  rewrite Hpm, stdout_eval_bind, stdout_print_bind.
  by rewrite Hpu, stdout_eval_bind, !stdout_print_bind.
Qed.

(** X11: when some name was seen and none is unmapped, the summary shows
    the number of names with [100.0%] as mapped and [0] with [0.0%] as
    missing; when every name seen is unmapped, it shows [0] with [0.0%] as
    mapped and the number of names with [100.0%] as missing. *)
Theorem summary_at_the_ends name_to_id f st :
  scan_csv name_to_id f = Done st →
  csv_exercises st ≠ ∅ →
  (unmapped_exercises st = ∅ →
   stdout (report_summary name_to_id st)
   = [nl +:+ rule;
      "📊 SUMMARY";
      rule;
      "Total unique exercises in CSV: " +:+ str (len (csv_exercises st));
      "Successfully mapped: " +:+ str (len (csv_exercises st)) +:+ " (100.0%)";
      "Missing mappings: 0 (0.0%)";
      "Total workout dates: " +:+ str (len (csv_workouts st))]
     ++ stdout (report_sample name_to_id st))
  ∧ (unmapped_exercises st = csv_exercises st →
     stdout (report_summary name_to_id st)
     = [nl +:+ rule;
        "📊 SUMMARY";
        rule;
        "Total unique exercises in CSV: " +:+ str (len (csv_exercises st));
        "Successfully mapped: 0 (0.0%)";
        "Missing mappings: " +:+ str (len (csv_exercises st)) +:+ " (100.0%)";
        "Total workout dates: " +:+ str (len (csv_workouts st))]).
Proof.
  intros Hscan Hne.
  assert (0 < len (csv_exercises st)) as Htot.
  { unfold len. assert (size (csv_exercises st) ≠ 0%nat); [|lia].
    rewrite size_non_empty_iff. by intros ?%leibniz_equiv. }
  destruct (percent_all st Htot) as [H100 H0].
  split.
  - intros Hun.
    assert (len (unmapped_exercises st) = 0) as Hlen by (by rewrite Hun).
    assert (mapped_count st = len (csv_exercises st)) as Hmc
      by (unfold mapped_count; lia).
    rewrite (report_summary_lines name_to_id st "100.0" "0.0");
      rewrite ?Hmc, ?Hlen; done.
  - intros Hun.
    assert (mapped_count st = 0) as Hmc
      by (unfold mapped_count; rewrite Hun; lia).
    rewrite (report_summary_lines name_to_id st "0.0" "100.0");
      rewrite ?Hmc, ?Hun; [|done..].
    unfold report_sample. rewrite Hmc. simpl. by rewrite ?app_nil_r.
Qed.

Lemma summary_at_the_ends_witness :
  stdout (report_summary (build_name_to_id Sample.bench_press)
            Sample.two_spellings_state) !! 4%nat
  = Some "Successfully mapped: 2 (100.0%)".
Proof.
  destruct (summary_at_the_ends (build_name_to_id Sample.bench_press)
              Sample.two_spellings Sample.two_spellings_state) as [Hall _].
  - vm_compute. reflexivity.
  - apply (bool_decide_unpack _). vm_compute. exact I.
  - rewrite Hall; [|reflexivity]. vm_compute. reflexivity.
Defined.

(** ** The sample of mapped names *)

(** X12: the sample of mapped names shows the names seen whose
    lower-cased form is a key of the dictionary, in strictly ascending
    order, the first 10 at most: after its heading it has the smaller of 10
    and [mapped_count] lines, and it prints nothing when no name is
    mapped. *)
Theorem sample_of_mapped name_to_id f st :
  scan_csv name_to_id f = Done st →
  ∃ names,
    StronglySorted (λ a b, String.ltb a b = true) names
    ∧ (∀ x, x ∈ names
            ↔ x ∈ csv_exercises st ∧ is_Some (name_to_id !! Py.lower x))
    ∧ Z.of_nat (length names) = mapped_count st
    ∧ stdout (report_sample name_to_id st)
      = (if 0 <? mapped_count st
         then (nl +:+ "✅ Sample of successfully mapped exercises:")
              :: ((λ ex, "   " +:+ ex +:+ " → "
                           +:+ str_get name_to_id (Py.lower ex))
                    <$> take 10 names)
         else [])
    ∧ Z.of_nat (length (stdout (report_sample name_to_id st)))
      = if 0 <? mapped_count st then 1 + Z.min 10 (mapped_count st) else 0.
Proof.
  intros (Hsub & _ & Hcls)%scan_csv_inv.
  exists (sorted (csv_exercises st ∖ unmapped_exercises st)).
  assert (Z.of_nat (length (sorted (csv_exercises st ∖ unmapped_exercises st)))
          = mapped_count st) as Hlen.
  { rewrite sorted_length, size_difference by done.
    apply subseteq_size in Hsub. unfold mapped_count, len. lia. }
  assert (stdout (report_sample name_to_id st)
      = (if 0 <? mapped_count st
         then (nl +:+ "✅ Sample of successfully mapped exercises:")
              :: ((λ ex, "   " +:+ ex +:+ " → "
                           +:+ str_get name_to_id (Py.lower ex))
                    <$> take 10 (sorted (csv_exercises st
                                         ∖ unmapped_exercises st)))
         else [])) as Hout.
  { unfold report_sample. by destruct (0 <? mapped_count st). }
  split; [apply sorted_ascending|]. split.
  { intros x. rewrite elem_of_sorted, elem_of_difference.
    split; intros [Hin Hx]; (split; [done|]).
    - apply not_eq_None_Some. intros Hnone. by apply Hx, Hcls.
    - intros Hun. apply Hcls in Hun; [|done]. rewrite Hun in Hx.
      by destruct Hx. }
  split; [done|]. split; [done|].
  rewrite Hout. destruct (0 <? mapped_count st); [|done].
  cbn [length]. rewrite length_fmap, length_take. lia.
Qed.

Lemma sample_of_mapped_witness :
  Z.of_nat (length (stdout (report_sample
                              (build_name_to_id Sample.bench_press)
                              Sample.with_squat_state))) = 3.
Proof.
  destruct (sample_of_mapped (build_name_to_id Sample.bench_press)
              Sample.with_squat Sample.with_squat_state)
    as (names & _ & _ & _ & _ & Hlen); [vm_compute; reflexivity|].
  rewrite Hlen. vm_compute. reflexivity.
Defined.

(** ** Percentages stay between 0.0 and 100.0 *)














(** ** What the report does not depend on *)

Lemma row_entries_members rows entries :
  Forall2 (λ row p, row_entry row = Done p) rows entries →
  ∀ p, p ∈ entries ↔ ∃ row, row ∈ rows ∧ row_entry row = Done p.
Proof.
  induction 1 as [|row p0 rows entries Hp0 _ IH]; intros p.
  - split; [by intros ?%elem_of_nil|by intros (? & ?%elem_of_nil & _)].
  - rewrite elem_of_cons, IH. split.
    + intros [->|(row' & Hin & Hp)]; [exists row|exists row'];
        (split; [by constructor|done]).
    + intros (row' & [->|Hin]%elem_of_cons & Hp).
      * left. congruence.
      * right. by exists row'.
Qed.

(** The names and the dates of the collections, row by row. *)
Lemma scan_csv_members name_to_id f st :
  scan_csv name_to_id f = Done st →
  (∀ x, x ∈ csv_exercises st
        ↔ ∃ row p, row ∈ DictReader f ∧ row_entry row = Done p
                   ∧ x = log_name p.2)
  ∧ (∀ d, d ∈ dom (csv_workouts st)
          ↔ ∃ row p, row ∈ DictReader f ∧ row_entry row = Done p ∧ d = p.1).
Proof.
  intros Hscan.
  destruct (scan_rows_entries _ _ _ _ Hscan) as (es & Hes & Hex & _ & Hw).
  pose proof (row_entries_members _ _ Hes) as Hmem. split.
  - intros x. rewrite Hex. simpl.
    rewrite elem_of_union, elem_of_list_to_set, <- list_fmap_compose,
      list_elem_of_fmap.
    split.
    + intros [(p & -> & (row & Hin & Hp)%Hmem)|[]%elem_of_empty].
      by exists row, p.
    + intros (row & p & Hin & Hp & ->). left. exists p. split; [done|].
      apply Hmem. by exists row.
  - intros d. rewrite elem_of_dom, Hw. simpl. rewrite lookup_empty.
    unfold entries_on. split.
    + destruct (filter (λ p, p.1 = d) es) as [|p ps] eqn:Hf;
        [by intros [? ?]|intros _].
      assert (p ∈ filter (λ p, p.1 = d) es) as [Hd Hp]%list_elem_of_filter
        by (rewrite Hf; by left).
      apply Hmem in Hp as (row & Hin & Hp). by exists row, p.
    + intros (row & p & Hin & Hp & ->).
      assert (p ∈ filter (λ p0, p0.1 = p.1) es) as Hpf.
      { apply list_elem_of_filter. split; [done|]. apply Hmem. by exists row. }
      destruct (filter (λ p0, p0.1 = p.1) es) as [|p' ps];
        [by apply elem_of_nil in Hpf|by eexists].
Qed.

(** The report reads three things of the collections. *)
Lemma report_ext name_to_id st st' :
  csv_exercises st' = csv_exercises st →
  unmapped_exercises st' = unmapped_exercises st →
  len (csv_workouts st') = len (csv_workouts st) →
  report name_to_id st' = report name_to_id st.
Proof.
  intros Hex Hun Hw.
  unfold report, report_mapping, report_unmapped, report_summary,
    report_sample, report_next_steps, percent, percent_value, mapped_count.
  by rewrite Hex, Hun, Hw.
Qed.

(** X14: the order of the data rows does not matter.  When the scan of a
    file raises nothing, the script prints the same lines, and ends the
    same way, on every file with the same header and the same data rows in
    another order. *)
Theorem row_order_irrelevant exercises_data fieldnames rows rows' :
  rows ≡ₚ rows' →
  succeeds (scan_csv (build_name_to_id exercises_data) (fieldnames :: rows)) →
  main exercises_data (fieldnames :: rows')
  = main exercises_data (fieldnames :: rows).
Proof.
  intros Hperm [st Hscan].
  assert (DictReader (fieldnames :: rows) ≡ₚ DictReader (fieldnames :: rows'))
    as Hrows by (unfold DictReader; by rewrite Hperm).
  assert (succeeds (scan_csv (build_name_to_id exercises_data)
                      (fieldnames :: rows'))) as [st' Hscan'].
  { unfold scan_csv. apply scan_rows_succeeds. rewrite <- Hrows.
    apply (scan_rows_succeeds (build_name_to_id exercises_data) _ scan_init).
    by exists st. }
  rewrite !main_unfold, Hscan, Hscan'.
  destruct (scan_csv_members _ _ _ Hscan) as [Hex Hw].
  destruct (scan_csv_members _ _ _ Hscan') as [Hex' Hw'].
  pose proof (scan_csv_inv _ _ _ Hscan) as (Hsub & _ & Hcls).
  pose proof (scan_csv_inv _ _ _ Hscan') as (Hsub' & _ & Hcls').
  assert (csv_exercises st' = csv_exercises st) as Heq.
  { apply set_eq. intros x. rewrite Hex, Hex'.
    by setoid_rewrite Hrows. }
  rewrite (report_ext _ st st'); [done|done|..].
  - apply set_eq. intros x. split; intros Hx.
    + apply Hcls; [rewrite <- Heq; by apply Hsub'|].
      apply Hcls'; [by apply Hsub'|done].
    + apply Hcls'; [rewrite Heq; by apply Hsub|].
      apply Hcls; [by apply Hsub|done].
  - unfold len. f_equal. rewrite <- !size_dom. f_equal.
    apply set_eq. intros d. rewrite Hw, Hw'. by setoid_rewrite Hrows.
Qed.

Lemma row_order_irrelevant_witness :
  main Sample.bench_press
    [Sample.header;
     ["2024-01-02"; "Bench Press"; "5"; "102.5"; "false"];
     ["2024-01-01"; "bench press"; "5"; "100"; "false"]]
  = main Sample.bench_press Sample.two_spellings.
Proof.
  apply (row_order_irrelevant Sample.bench_press Sample.header).
  - apply perm_swap.
  - exists Sample.two_spellings_state. vm_compute. reflexivity.
Defined.

Lemma scan_rows_same_keys (m m' : gmap string string) rows : ∀ st,
  (∀ k, m !! k = None ↔ m' !! k = None) →
  scan_rows m st rows = scan_rows m' st rows.
Proof.
  induction rows as [|row rows IH]; intros st Hkeys; simpl; [done|].
  assert (scan_step m st row = scan_step m' st row) as ->.
  { rewrite !scan_step_entry. destruct (row_entry row) as [p|]; [|done].
    simpl. do 2 f_equal. specialize (Hkeys (Py.lower (log_name p.2))).
    destruct (m !! _), (m' !! _); try done.
    - by pose proof (proj2 Hkeys eq_refl).
    - by pose proof (proj1 Hkeys eq_refl). }
  destruct (scan_step m' st row); simpl; [by apply IH|done].
Qed.

Lemma name_to_id_keys_of_records exercises_data k :
  is_Some (build_name_to_id exercises_data !! k)
  ↔ ∃ item, item ∈ exercises_data ∧ k ∈ keys_written item.2.
Proof.
  unfold build_name_to_id. split.
  - intros [i [Hempty|(data & Hin & Hk)]%name_to_id_fold_Some].
    + by rewrite lookup_empty in Hempty.
    + by exists (i, data).
  - intros Hk. apply name_to_id_fold_is_Some. by right.
Qed.

(** X15: the order of the records of [exercises.json] affects neither
    the keys of the dictionary nor the scan: two files with the same
    records in different orders give the same keys, the same outcome of
    the scan and the same three collections. *)
Theorem record_order_irrelevant exercises_data exercises_data' f :
  exercises_data ≡ₚ exercises_data' →
  dom (build_name_to_id exercises_data') = dom (build_name_to_id exercises_data)
  ∧ scan_csv (build_name_to_id exercises_data') f
    = scan_csv (build_name_to_id exercises_data) f.
Proof.
  intros Hperm.
  assert (∀ k, is_Some (build_name_to_id exercises_data' !! k)
               ↔ is_Some (build_name_to_id exercises_data !! k)) as Hkeys.
  { intros k. rewrite !name_to_id_keys_of_records.
    by setoid_rewrite Hperm. }
  split.
  - apply set_eq. intros k. by rewrite !elem_of_dom.
  - unfold scan_csv. apply scan_rows_same_keys. intros k.
    rewrite !eq_None_not_Some. by rewrite Hkeys.
Qed.

Lemma record_order_irrelevant_witness :
  scan_csv (build_name_to_id
              [("2", {| name := "Squat"; exportName := None |});
               ("1", {| name := "Bench Press"; exportName := None |})])
    Sample.with_squat
  = scan_csv (build_name_to_id
                [("1", {| name := "Bench Press"; exportName := None |});
                 ("2", {| name := "Squat"; exportName := None |})])
      Sample.with_squat.
Proof.
  apply (record_order_irrelevant
           [("1", {| name := "Bench Press"; exportName := None |});
            ("2", {| name := "Squat"; exportName := None |})]).
  apply perm_swap.
Defined.
